(** * Task management API: ownership-scoped Todo/Item business logic

    A shallow embedding of [app/business_logic/todo_logic.py] and
    [app/business_logic/item_logic.py], together with the two tables they
    work on ([app/models/todo.py], [app/models/item.py]) and the unit of
    work of the database session they share ([db.session]).

    Tables are lists of rows, in the order the engine returns them.  The
    session is a pair of stores: what is committed, and what the current
    transaction sees.  A function of the business logic is a computation
    in a small state-and-exception monad over the session; the only
    source of exceptions that is modelled is a failing [commit]. *)

From stdpp Require Import base decidable option list strings pretty gmap.

Local Open Scope string_scope.
Local Open Scope Z_scope.

(** ** Python values that reach a column *)

(** [update_todo] and [bulk_update_todos] receive what [request.get_json()]
    produced; the scalars of JSON are kept apart. *)
Inductive pyval : Type :=
  | PyNone
  | PyBool (b : bool)
  | PyInt (n : Z)
  | PyStr (s : string).

#[global] Instance pyval_eq_dec : EqDecision pyval.
Proof. solve_decision. Defined.

(** Python's truth value, as used by [if not status]. *)
Definition truthy (v : pyval) : bool :=
  match v with
  | PyNone => false
  | PyBool b => b
  | PyInt n => bool_decide (n ≠ 0)
  | PyStr s => bool_decide (s ≠ "")
  end.

(** [repr] of a string without quotes or escapes in it, and of a list of
    such strings: what an f-string prints for [{VALID_STATUSES}]. *)
Definition py_repr_str (s : string) : string := "'" +:+ s +:+ "'".

Fixpoint py_join (sep : string) (l : list string) : string :=
  match l with
  | [] => ""
  | [s] => s
  | s :: rest => s +:+ sep +:+ py_join sep rest
  end.

Definition py_repr_list (l : list string) : string :=
  "[" +:+ py_join ", " (py_repr_str <$> l) +:+ "]".

(** ** The two tables *)

Module Todo.
Record t : Type := mk {
    id : Z;
    title : pyval;
    description : pyval;
    status : pyval;
    completed : pyval;
    user_id : Z
  }.

Definition with_title (v : pyval) (r : t) : t :=
    mk (id r) v (description r) (status r) (completed r) (user_id r).
Definition with_description (v : pyval) (r : t) : t :=
    mk (id r) (title r) v (status r) (completed r) (user_id r).
Definition with_status (v : pyval) (r : t) : t :=
    mk (id r) (title r) (description r) v (completed r) (user_id r).
Definition with_completed (v : pyval) (r : t) : t :=
    mk (id r) (title r) (description r) (status r) v (user_id r).
End Todo.

Module Item.
Record t : Type := mk {
    id : Z;
    content : string;
    status : string;
    due_date : option Z;
    todo_id : Z
  }.

Definition with_status (v : string) (r : t) : t :=
    mk (id r) (content r) v (due_date r) (todo_id r).
End Item.

#[global] Instance todo_eq_dec : EqDecision Todo.t.
Proof. solve_decision. Defined.

#[global] Instance item_eq_dec : EqDecision Item.t.
Proof. solve_decision. Defined.

(** ** The column types of models/todo.py

    [title] is a [String] that is not nullable; [description] ([Text]) and
    [status] ([String]) are nullable; [completed] is a nullable [Boolean].
    The engine converts or refuses a value of another type, so what the
    functions below write into these columns is kept to values of the
    column's type. *)

Definition fits_text (nullable : bool) (v : pyval) : bool :=
  match v with
  | PyStr _ => true
  | PyNone => nullable
  | _ => false
  end.

Definition fits_boolean (v : pyval) : bool :=
  match v with
  | PyBool _ | PyNone => true
  | _ => false
  end.

(** A string or [None], as a column value. *)
Definition py_text (o : option string) : pyval := from_option PyStr PyNone o.

(** The string or null that a JSON value is. *)
Definition as_text (v : pyval) : option string :=
  match v with
  | PyStr s => Some s
  | _ => None
  end.

(** The payload of an update: a JSON dictionary in which the values of
    the four column keys, where present, fit their columns; other keys
    hold what they like. *)
Definition fits_todo_columns (d : gmap string pyval) : bool :=
  from_option (fits_text false) true (d !! "title")
  && from_option (fits_text true) true (d !! "description")
  && from_option (fits_text true) true (d !! "status")
  && from_option fits_boolean true (d !! "completed").

Record TodoPayload : Type := mkTodoPayload {
  payload_dict : gmap string pyval;
  payload_fits : fits_todo_columns payload_dict = true
}.

#[global] Instance todo_payload_lookup : Lookup string pyval TodoPayload :=
  λ key data, payload_dict data !! key.

(** The body of a create request: a JSON dictionary in which title,
    description and status, where present, are strings or null. *)
Definition fits_todo_body (d : gmap string pyval) : bool :=
  from_option (fits_text true) true (d !! "title")
  && from_option (fits_text true) true (d !! "description")
  && from_option (fits_text true) true (d !! "status").

Record TodoBody : Type := mkTodoBody {
  body_dict : gmap string pyval;
  body_fits : fits_todo_body body_dict = true
}.

#[global] Instance todo_body_lookup : Lookup string pyval TodoBody :=
  λ key data, body_dict data !! key.

Record Store : Type := mkStore {
  todos : list Todo.t;
  items : list Item.t
}.

(** Primary keys: no two rows of a table share an id. *)
Definition pk_unique (st : Store) : Prop :=
  NoDup (Todo.id <$> todos st) ∧ NoDup (Item.id <$> items st).

#[global] Instance pk_unique_dec st : Decision (pk_unique st).
Proof. unfold pk_unique. apply _. Defined.

(** ** The session: a unit of work over the store *)

Record Session : Type := mkSession {
  committed : Store;
  pending : Store
}.

(** A session with nothing pending, as a request finds it. *)
Definition clean (st : Store) : Session := mkSession st st.

Inductive result (A : Type) : Type :=
  | Ok (a : A)
  | Raise (e : string).
Arguments Ok {A} a.
Arguments Raise {A} e.

(** A computation reads the fate of the next [commit] ([None]: it goes
    through; [Some e]: the engine raises an exception whose [str] is [e]),
    transforms the session and returns or raises. *)
Definition DB (A : Type) : Type := option string → Session → Session * result A.

#[global] Instance db_ret : MRet DB := λ A a _ s, (s, Ok a).

#[global] Instance db_bind : MBind DB := λ A B k m fault s,
  match m fault s with
  | (s', Ok a) => k a fault s'
  | (s', Raise e) => (s', Raise e)
  end.

Definition run {A} (m : DB A) (fault : option string) (s : Session) :
  Session * result A := m fault s.

Definition query : DB Store := λ _ s, (s, Ok (pending s)).

Definition flush_to (st : Store) : DB unit :=
  λ _ s, (mkSession (committed s) st, Ok ()).

(** [db.session.commit()] *)
Definition commit : DB unit := λ fault s,
  match fault with
  | None => (mkSession (pending s) (pending s), Ok ())
  | Some e => (s, Raise e)
  end.

(** [db.session.rollback()] *)
Definition rollback : DB unit :=
  λ _ s, (mkSession (committed s) (committed s), Ok ()).

(** [try: body except Exception as e: handler e] *)
Definition try_except {A} (body : DB A) (handler : string → DB A) : DB A :=
  λ fault s,
  match body fault s with
  | (s', Raise e) => handler e fault s'
  | r => r
  end.

(** [for x in l: body x] *)
Fixpoint for_each {A} (l : list A) (body : A → DB unit) : DB unit :=
  match l with
  | [] => mret ()
  | x :: rest => body x;; for_each rest body
  end.

(** ** Queries *)

(** [Todo.query.filter_by(id=todo_id, user_id=user_id)] *)
Definition todo_filter_by (st : Store) (todo_id user_id : Z) : list Todo.t :=
  filter (λ t, Todo.id t = todo_id ∧ Todo.user_id t = user_id) (todos st).

(** [Todo.query.filter_by(user_id=user_id)] *)
Definition todo_filter_by_user (st : Store) (user_id : Z) : list Todo.t :=
  filter (λ t, Todo.user_id t = user_id) (todos st).

(** [Todo.query.filter(Todo.id.in_(todo_ids), Todo.user_id == user_id)] *)
Definition todo_filter_in (st : Store) (todo_ids : list Z) (user_id : Z) :
  list Todo.t :=
  filter (λ t, Todo.id t ∈ todo_ids ∧ Todo.user_id t = user_id) (todos st).

(** [Item.query.join(Item.todo)]: an item with the todo its foreign key
    names. *)
Definition item_join_todo (st : Store) : list (Item.t * Todo.t) :=
  it ← items st;
  t ← filter (λ t, Todo.id t = Item.todo_id it) (todos st);
  [(it, t)].

(** [.filter(Item.id == item_id, Todo.user_id == user_id)] on the join *)
Definition item_filter_owned (st : Store) (item_id user_id : Z) : list Item.t :=
  fst <$> filter (λ p, Item.id p.1 = item_id ∧ Todo.user_id p.2 = user_id)
            (item_join_todo st).

(** [.filter(Item.id.in_(item_ids), Todo.user_id == user_id)] on the join *)
Definition item_filter_owned_in (st : Store) (item_ids : list Z) (user_id : Z) :
  list Item.t :=
  fst <$> filter (λ p, Item.id p.1 ∈ item_ids ∧ Todo.user_id p.2 = user_id)
            (item_join_todo st).

(** [Item.query.filter_by(todo_id=todo_id)] *)
Definition item_filter_by_todo (st : Store) (todo_id : Z) : list Item.t :=
  filter (λ it, Item.todo_id it = todo_id) (items st).

(** [.first()] *)
Definition first {A} (q : list A) : option A := head q.

(** ** Changes held by the session *)

(** The next value of an autoincrement key. *)
Definition next_id (ids : list Z) : Z := 1 + foldr Z.max 0 ids.

(** [db.session.add(Item(...))]: the row gets its key. *)
Definition session_add_item (content : string) (todo_id : Z)
    (due_date : option Z) (status : string) : DB Item.t :=
  st ← query;
  let item := Item.mk (next_id (Item.id <$> items st)) content status due_date todo_id in
  flush_to (mkStore (todos st) (items st ++ [item]));;
  mret item.

(** [db.session.add(Todo(...))] with a title, a description and a status
    that are strings or [None].  An attribute that is [None] is left out
    of the INSERT, so [status] then takes the default of its column, "In
    Progress", as [completed] takes [False]. *)
Definition session_add_todo (title description status : option string)
    (user_id : Z) : DB Todo.t :=
  st ← query;
  let todo := Todo.mk (next_id (Todo.id <$> todos st)) (py_text title)
                (py_text description) (PyStr (default "In Progress" status))
                (PyBool false) user_id in
  flush_to (mkStore (todos st ++ [todo]) (items st));;
  mret todo.

(** What stands for the [IntegrityError] of the engine when a todo
    without title is inserted; its full text is the engine's. *)
Definition todo_title_not_null : string :=
  "NOT NULL constraint failed: todos.title".

(** [raise] *)
Definition throw {A} (e : string) : DB A := λ _ s, (s, Raise e).

(** [db.session.commit()] with a new todo in the unit of work: the flush
    sends the INSERT first, and the engine refuses a row whose title is
    NULL ([nullable=False]) whatever else would happen to the commit. *)
Definition commit_new_todo (todo : Todo.t) : DB unit :=
  if decide (Todo.title todo = PyNone) then throw todo_title_not_null
  else commit.

(** An attribute assignment on a loaded row is an UPDATE by primary key. *)
Definition update_item (item : Item.t) (f : Item.t → Item.t) : DB unit :=
  st ← query;
  flush_to (mkStore (todos st)
    ((λ r, if decide (Item.id r = Item.id item) then f r else r) <$> items st)).

Definition update_todo_row (todo : Todo.t) (f : Todo.t → Todo.t) : DB unit :=
  st ← query;
  flush_to (mkStore
    ((λ r, if decide (Todo.id r = Todo.id todo) then f r else r) <$> todos st)
    (items st)).

(** [db.session.delete(item)]: a DELETE by primary key. *)
Definition session_delete_item (item : Item.t) : DB unit :=
  st ← query;
  flush_to (mkStore (todos st)
    (filter (λ r, Item.id r ≠ Item.id item) (items st))).

(** [db.session.delete(todo)]: [Todo.items] is declared with
    [cascade="all, delete-orphan"], so the rows of [todo.items] are deleted
    with it. *)
Definition session_delete_todo (todo : Todo.t) : DB unit :=
  st ← query;
  for_each (item_filter_by_todo st (Todo.id todo)) session_delete_item;;
  st' ← query;
  flush_to (mkStore (filter (λ r, Todo.id r ≠ Todo.id todo) (todos st'))
              (items st')).

(** An attribute assignment also changes the loaded object the function
    goes on to return. *)
Definition set_item_attr (item : Item.t) (f : Item.t → Item.t) : DB Item.t :=
  update_item item f;; mret (f item).

Definition set_todo_attr (todo : Todo.t) (f : Todo.t → Todo.t) : DB Todo.t :=
  update_todo_row todo f;; mret (f todo).

(** ** Pagination *)

(** [Query.paginate(page, per_page, error_out=False)] of Flask-SQLAlchemy:
    a page below 1 becomes 1, a page size below 1 becomes 20, no maximum
    page size is applied unless one is passed, and a page past the end is
    empty. *)
Record Pagination (A : Type) : Type := mkPagination {
  pg_items : list A;
  pg_total : Z;
  pg_page : Z;
  pg_pages : Z;
  pg_per_page : Z
}.
Arguments mkPagination {A}.
Arguments pg_items {A}.
Arguments pg_total {A}.
Arguments pg_page {A}.
Arguments pg_pages {A}.
Arguments pg_per_page {A}.

Definition paginate {A} (q : list A) (page per_page : Z) : Pagination A :=
  let page := if decide (page < 1) then 1 else page in
  let per_page := if decide (per_page < 1) then 20 else per_page in
  let total := Z.of_nat (length q) in
  mkPagination
    (take (Z.to_nat per_page) (drop (Z.to_nat ((page - 1) * per_page)) q))
    total page
    (if decide (total = 0) then 0 else (total + per_page - 1) `div` per_page)
    per_page.

(** ** item_logic.py *)

Definition VALID_STATUSES : list string :=
  ["Pending"; "Partially Completed"; "Completed"].

Definition item_not_found : string :=
  "Item not found or you don't have permission".

Definition todo_not_found_or_permission : string :=
  "Todo not found or you don't have permission".

(** User ids are integers here, so [int(user_id)] is the identity. *)
Definition add_item_to_todo (todo_id user_id : Z) (content : string)
    (due_date : option Z) (status : string) :
  DB (option Item.t * option string) :=
  st ← query;
  match first (todo_filter_by st todo_id user_id) with
  | None => mret (None, Some todo_not_found_or_permission)
  | Some todo =>
      item ← session_add_item content (Todo.id todo) due_date status;
      commit;;
      mret (Some item, None)
  end.

Definition update_item_status (item_id user_id : Z) (new_status : string) :
  DB (option Item.t * option string) :=
  st ← query;
  match first (item_filter_owned st item_id user_id) with
  | None => mret (None, Some item_not_found)
  | Some item =>
      if decide (new_status ∉ VALID_STATUSES) then
        mret (None, Some ("Invalid status. Must be one of "
                          +:+ py_repr_list VALID_STATUSES))
      else
        item ← set_item_attr item (Item.with_status new_status);
        commit;;
        mret (Some item, None)
  end.

Definition delete_item (item_id user_id : Z) : DB (bool * option string) :=
  st ← query;
  match first (item_filter_owned st item_id user_id) with
  | None => mret (false, Some item_not_found)
  | Some item =>
      session_delete_item item;;
      commit;;
      mret (true, None)
  end.

Definition get_items_for_todo (todo_id user_id page per_page : Z) :
  DB (option (Pagination Item.t) * option string) :=
  st ← query;
  match first (todo_filter_by st todo_id user_id) with
  | None => mret (None, Some todo_not_found_or_permission)
  | Some todo =>
      let pagination :=
        paginate (item_filter_by_todo st todo_id) page (Z.min per_page 100) in
      mret (Some (mkPagination (pg_items pagination) (pg_total pagination)
                    (pg_page pagination) (pg_pages pagination)
                    (pg_per_page pagination)), None)
  end.

Definition get_item_by_id (item_id user_id : Z) : DB (option Item.t) :=
  st ← query;
  mret (first (item_filter_owned st item_id user_id)).

Definition bulk_update_items (user_id : Z) (item_ids : list Z) (action : string) :
  DB (bool * option string) :=
  st ← query;
  let items := item_filter_owned_in st item_ids user_id in
  if decide (items = []) then mret (false, Some item_not_found)
  else if decide (action = "delete") then
    for_each items session_delete_item;;
    commit;;
    mret (true, None)
  else if decide (action ∈ VALID_STATUSES) then
    for_each items (λ item, update_item item (Item.with_status action));;
    commit;;
    mret (true, None)
  else
    mret (false, Some ("Invalid action. Must be one of "
                       +:+ py_repr_list VALID_STATUSES +:+ " or 'delete'")).

(** ** todo_logic.py *)

Definition create_todo (title : option string) (user_id : Z)
    (description status : option string) : DB Todo.t :=
  todo ← session_add_todo title description status user_id;
  commit_new_todo todo;;
  mret todo.

Definition get_todos (user_id page per_page : Z) : DB (list Todo.t) :=
  st ← query;
  mret (pg_items (paginate (todo_filter_by_user st user_id) page per_page)).

Definition get_todo_by_id (todo_id user_id : Z) : DB (option Todo.t) :=
  st ← query;
  mret (first (todo_filter_by st todo_id user_id)).

Definition update_todo (todo_id user_id : Z) (data : TodoPayload) :
  DB (option Todo.t * option string) :=
  st ← query;
  match first (todo_filter_by st todo_id user_id) with
  | None => mret (None, Some "Todo not found")
  | Some todo =>
      todo ← match data !! "title" with
             | Some v => set_todo_attr todo (Todo.with_title v)
             | None => mret todo
             end;
      todo ← match data !! "description" with
             | Some v => set_todo_attr todo (Todo.with_description v)
             | None => mret todo
             end;
      todo ← match data !! "status" with
             | Some v => set_todo_attr todo (Todo.with_status v)
             | None => mret todo
             end;
      todo ← match data !! "completed" with
             | Some v => set_todo_attr todo (Todo.with_completed v)
             | None => mret todo
             end;
      commit;;
      mret (Some todo, None)
  end.

Definition delete_todo (todo_id user_id : Z) : DB (bool * option string) :=
  st ← query;
  match first (todo_filter_by st todo_id user_id) with
  | None => mret (false, Some "Todo not found")
  | Some todo =>
      session_delete_todo todo;;
      commit;;
      mret (true, None)
  end.

Definition bulk_update_todos (user_id : Z) (todo_ids : list Z) (action : string)
    (status : pyval) : DB (bool * option string) :=
  try_except
    (st ← query;
     let todos := todo_filter_in st todo_ids user_id in
     if decide (todos = []) then mret (false, Some "No matching todos found")
     else if decide (action = "delete") then
       for_each todos session_delete_todo;;
       commit;;
       mret (true, None)
     else if decide (action = "update_status") then
       if negb (truthy status) then
         mret (false, Some "Missing status for bulk update")
       else
         for_each todos (λ t, update_todo_row t (Todo.with_status status));;
         commit;;
         mret (true, None)
     else mret (false, Some "Invalid action"))
    (λ e, rollback;; mret (false, Some e)).

(** ** A small database to run the functions on

    Users 1 and 2.  User 1 owns todos 1 and 2, user 2 owns todo 3; items 1
    and 2 belong to todo 1, item 3 to todo 2, item 4 to todo 3. *)

Definition sample_todo (id user_id : Z) : Todo.t :=
  Todo.mk id (PyStr "T") PyNone (PyStr "In Progress") (PyBool false) user_id.

Definition sample_item (id todo_id : Z) : Item.t :=
  Item.mk id "C" "Pending" None todo_id.

Definition sample : Store :=
  mkStore [sample_todo 1 1; sample_todo 2 1; sample_todo 3 2]
          [sample_item 1 1; sample_item 2 1; sample_item 3 2; sample_item 4 3].

(** ** Ownership, stated on the tables *)

(** The todo is a row of the table and belongs to the user. *)
Definition owns_todo (st : Store) (user_id : Z) (t : Todo.t) : Prop :=
  t ∈ todos st ∧ Todo.user_id t = user_id.

(** The ownership chain Item → Todo → user_id of an item ends in the user. *)
Definition item_owner (st : Store) (it : Item.t) (user_id : Z) : Prop :=
  Exists (λ t, Todo.id t = Item.todo_id it ∧ Todo.user_id t = user_id) (todos st).

Definition owns_item (st : Store) (user_id : Z) (it : Item.t) : Prop :=
  it ∈ items st ∧ item_owner st it user_id.

#[global] Instance item_owner_dec st it uid : Decision (item_owner st it uid).
Proof. unfold item_owner. apply _. Defined.

(** The ids of a bulk request that survive the ownership filter. *)
Definition todo_selected (uid : Z) (ids : list Z) (t : Todo.t) : Prop :=
  Todo.id t ∈ ids ∧ Todo.user_id t = uid.

Definition item_selected (st : Store) (uid : Z) (ids : list Z) (it : Item.t) : Prop :=
  Item.id it ∈ ids ∧ item_owner st it uid.

#[global] Instance todo_selected_dec uid ids t : Decision (todo_selected uid ids t).
Proof. unfold todo_selected. apply _. Defined.

#[global] Instance item_selected_dec st uid ids it :
  Decision (item_selected st uid ids it).
Proof. unfold item_selected. apply _. Defined.

(** The statuses of all stored items are in the vocabulary. *)
Definition statuses_valid (st : Store) : Prop :=
  Forall (λ it, Item.status it ∈ VALID_STATUSES) (items st).

(** ** Outcomes, stated on the store *)

(** The outcome of [commit(); return a] on a session whose transaction
    has taken the store from [st] to [st']. *)
Definition after_commit {A} (fault : option string) (st st' : Store) (a : A) :
  Session * result A :=
  match fault with
  | None => (clean st', Ok a)
  | Some e => (mkSession st st', Raise e)
  end.

(** The same inside [try: ... except Exception as e: rollback; return
    False, str(e)]. *)
Definition after_guarded_commit (fault : option string) (st st' : Store) :
  Session * result (bool * option string) :=
  match fault with
  | None => (clean st', Ok (true, None))
  | Some e => (clean st, Ok (false, Some e))
  end.

(** What [update_todo] leaves in the row: each of the four keys the
    function reads replaces the attribute when the payload has it. *)
Definition opt_set (o : option pyval) (F : pyval → Todo.t → Todo.t) :
  Todo.t → Todo.t :=
  match o with
  | Some v => F v
  | None => λ r, r
  end.

Definition merged (data : TodoPayload) (t : Todo.t) : Todo.t :=
  opt_set (data !! "completed") Todo.with_completed
    (opt_set (data !! "status") Todo.with_status
       (opt_set (data !! "description") Todo.with_description
          (opt_set (data !! "title") Todo.with_title t))).

(** Payloads and bodies to run the functions on. *)
Definition payload_title_and_owner : TodoPayload :=
  mkTodoPayload {["title" := PyStr "New"; "user_id" := PyInt 7]}
    ltac:(by vm_compute).

Definition payload_status_completed : TodoPayload :=
  mkTodoPayload {["status" := PyStr "Completed"]} ltac:(by vm_compute).

Definition body_without_title : TodoBody :=
  mkTodoBody {["status" := PyStr "Completed"]} ltac:(by vm_compute).

Definition body_empty_title : TodoBody :=
  mkTodoBody {["title" := PyStr ""; "status" := PyNone;
               "completed" := PyBool true; "user_id" := PyInt 7]}
    ltac:(by vm_compute).

Definition body_null_title : TodoBody :=
  mkTodoBody {["title" := PyNone]} ltac:(by vm_compute).

(** A user with 150 todos, the first of which has 150 items. *)
Definition crowded : Store :=
  mkStore ((λ i, sample_todo (Z.of_nat i) 1) <$> seq 1 150)
          ((λ i, sample_item (Z.of_nat i) 1) <$> seq 1 150).

(** ** schemas/item.py *)

(** [ItemSchema.get_overdue]; [today] is what [date.today()] returns, and
    dates are day numbers. *)
Definition get_overdue (today : Z) (obj : Item.t) : bool :=
  match Item.due_date obj with
  | Some due_date =>
      bool_decide (Item.status obj ≠ "Completed") && bool_decide (due_date < today)
  | None => false
  end.

(** ** The resources: what a handler answers *)

(** A handler returns a body with a status code, or stops in
    [abort(code, message=...)]. *)
Inductive http (A : Type) : Type :=
  | Respond (code : Z) (body : A)
  | Abort (code : Z) (message : option string).
Arguments Respond {A} code body.
Arguments Abort {A} code message.

(** [str] of an integer and of a list of integers, for the f-strings of
    the messages. *)
Definition py_str_ints (l : list Z) : string :=
  "[" +:+ py_join ", " (pretty <$> l) +:+ "]".

Definition item_with_content (v : string) (r : Item.t) : Item.t :=
  Item.mk (Item.id r) v (Item.status r) (Item.due_date r) (Item.todo_id r).

Definition item_with_due_date (v : option Z) (r : Item.t) : Item.t :=
  Item.mk (Item.id r) (Item.content r) (Item.status r) v (Item.todo_id r).

(** ** resources/items.py

    [identity] is the user id that [get_jwt_identity()] gives. *)

(** [.filter(Item.id == item_id, Todo.id == todo_id, Todo.user_id == user_id)]
    on the join *)
Definition item_filter_owned_under (st : Store) (item_id todo_id user_id : Z) :
  list Item.t :=
  fst <$> filter (λ p, Item.id p.1 = item_id ∧ Todo.id p.2 = todo_id
                       ∧ Todo.user_id p.2 = user_id)
            (item_join_todo st).

(** What [ItemSchema().load] hands to [post]: [content] is required,
    [status] has a [load_default], [due_date] may be absent or null. *)
Record ItemData : Type := mkItemData {
  data_content : string;
  data_status : string;
  data_due_date : option Z
}.

(** What [ItemSchema(partial=True).load] hands to [put]: the keys of the
    body, none of them required. *)
Record ItemPatch : Type := mkItemPatch {
  patch_content : option string;
  patch_status : option string;
  patch_due_date : option (option Z)
}.

Definition ItemsResource_get (identity todo_id : Z) : DB (http (list Item.t)) :=
  st ← query;
  match first (todo_filter_by st todo_id identity) with
  | None => mret (Abort 404 (Some todo_not_found_or_permission))
  | Some todo => mret (Respond 200 (item_filter_by_todo st (Todo.id todo)))
  end.

Definition ItemsResource_post (identity : Z) (item_data : ItemData) (todo_id : Z) :
  DB (http Item.t) :=
  st ← query;
  match first (todo_filter_by st todo_id identity) with
  | None => mret (Abort 404 (Some todo_not_found_or_permission))
  | Some todo =>
      try_except
        (item ← session_add_item (data_content item_data) (Todo.id todo)
                  (data_due_date item_data) (data_status item_data);
         commit;;
         mret (Respond 201 item))
        (λ e, rollback;; mret (Abort 500 (Some e)))
  end.

Definition ItemResource_get (identity todo_id item_id : Z) : DB (http Item.t) :=
  st ← query;
  match first (item_filter_owned_under st item_id todo_id identity) with
  | None => mret (Abort 404 (Some item_not_found))
  | Some item => mret (Respond 200 item)
  end.

Definition ItemResource_put (identity : Z) (item_data : ItemPatch)
    (todo_id item_id : Z) : DB (http Item.t) :=
  st ← query;
  match first (item_filter_owned_under st item_id todo_id identity) with
  | None => mret (Abort 404 (Some item_not_found))
  | Some item =>
      item ← match patch_content item_data with
             | Some v => set_item_attr item (item_with_content v)
             | None => mret item
             end;
      item ← match patch_status item_data with
             | Some v => set_item_attr item (Item.with_status v)
             | None => mret item
             end;
      item ← match patch_due_date item_data with
             | Some v => set_item_attr item (item_with_due_date v)
             | None => mret item
             end;
      try_except
        (commit;; mret (Respond 200 item))
        (λ e, rollback;; mret (Abort 500 (Some e)))
  end.

Definition ItemResource_delete (identity todo_id item_id : Z) :
  DB (http (bool * string)) :=
  st ← query;
  match first (item_filter_owned_under st item_id todo_id identity) with
  | None => mret (Abort 404 (Some item_not_found))
  | Some item =>
      try_except
        (session_delete_item item;;
         commit;;
         mret (Respond 200
                 (true, "Item " +:+ pretty item_id +:+ " deleted successfully")))
        (λ e, rollback;; mret (Abort 500 (Some e)))
  end.

(** [data] has passed [BulkUpdateSchema]: a list of integers and a
    string. *)
Definition ItemsBulkResource_put (identity : Z) (item_ids : list Z)
    (action : string) : DB (http (bool * string)) :=
  if decide (item_ids = []) then
    mret (Abort 400 (Some "item_ids must be a non-empty list of integers"))
  else
    r ← bulk_update_items identity item_ids action;
    if negb r.1 then mret (Abort 404 r.2)
    else if decide (action = "delete") then
      mret (Respond 200
              (true, "Items " +:+ py_str_ints item_ids +:+ " deleted successfully"))
    else
      mret (Respond 200
              (true, "Items " +:+ py_str_ints item_ids +:+ " updated to '"
                     +:+ action +:+ "' successfully")).

(** ** resources/todos.py

    The JSON body is [None] for [null] and a dictionary otherwise; a query
    argument is [None] when it is absent or is not an integer. *)

Definition TodoResource_post (identity : Z) (data : option TodoBody) :
  DB (http Todo.t) :=
  match data with
  | None => mret (Abort 400 (Some "Missing field: title"))
  | Some d =>
      match d !! "title" with
      | None => mret (Abort 400 (Some "Missing field: title"))
      | Some title =>
          todo ← create_todo (as_text title) identity
                   (as_text (default PyNone (d !! "description")))
                   (as_text (default (PyStr "In Progress") (d !! "status")));
          mret (Respond 201 todo)
      end
  end.

Definition TodoResource_get (identity : Z) (todo_id page per_page : option Z) :
  DB (http (Todo.t + list Todo.t)) :=
  if bool_decide (todo_id ≠ None ∧ todo_id ≠ Some 0) then
    todo ← get_todo_by_id (default 0 todo_id) identity;
    match todo with
    | None =>
        mret (Abort 403 (Some "Forbidden: Not your Todo or doesn't exist"))
    | Some todo => mret (Respond 200 (inl todo))
    end
  else
    todos ← get_todos identity (default 1 page) (default 10 per_page);
    mret (Respond 200 (inr todos)).

Definition TodoResource_delete (identity todo_id : Z) : DB (http string) :=
  r ← delete_todo todo_id identity;
  if negb r.1 then mret (Abort 403 r.2)
  else mret (Respond 200 "Todo deleted").

(** ** Well-formed stores *)

(** Every item hangs under a todo of the table. *)
Definition items_attached (st : Store) : Prop :=
  Forall (λ it, Item.todo_id it ∈ Todo.id <$> todos st) (items st).

#[global] Instance items_attached_dec st : Decision (items_attached st).
Proof. unfold items_attached. apply _. Defined.

(** What one call can do to the committed store: nothing; add a row with
    the next key (an item under a todo of the table); rewrite rows in
    place, keys and parents kept; delete rows, never a todo that a
    remaining item hangs under. *)
Inductive store_step (st : Store) : Store → Prop :=
  | step_same : store_step st st
  | step_add_item (it : Item.t) :
      Item.id it = next_id (Item.id <$> items st) →
      Item.todo_id it ∈ Todo.id <$> todos st →
      store_step st (mkStore (todos st) (items st ++ [it]))
  | step_add_todo (t : Todo.t) :
      Todo.id t = next_id (Todo.id <$> todos st) →
      store_step st (mkStore (todos st ++ [t]) (items st))
  | step_set_items (f : Item.t → Item.t) :
      (∀ r, Item.id (f r) = Item.id r) →
      (∀ r, Item.todo_id (f r) = Item.todo_id r) →
      store_step st (mkStore (todos st) (f <$> items st))
  | step_set_todos (f : Todo.t → Todo.t) :
      (∀ r, Todo.id (f r) = Todo.id r) →
      store_step st (mkStore (f <$> todos st) (items st))
  | step_delete (ts : list Todo.t) (its : list Item.t) :
      ts `sublist_of` todos st →
      its `sublist_of` items st →
      (∀ it t, it ∈ its → t ∈ todos st → Todo.id t = Item.todo_id it → t ∈ ts) →
      store_step st (mkStore ts its).

(** What [ItemResource.put] leaves in the row: each key of the body
    replaces the attribute. *)
Definition patched (p : ItemPatch) (r : Item.t) : Item.t :=
  Item.mk (Item.id r)
    (default (Item.content r) (patch_content p))
    (default (Item.status r) (patch_status p))
    (default (Item.due_date r) (patch_due_date p))
    (Item.todo_id r).

(** The outcome of [try: commit() except SQLAlchemyError as e: rollback();
    abort(500, message=str(e))] followed by the answer [a]. *)
Definition after_http_commit {A} (fault : option string) (st st' : Store)
    (a : http A) : Session * result (http A) :=
  match fault with
  | None => (clean st', Ok a)
  | Some e => (clean st, Ok (Abort 500 (Some e)))
  end.

(** * Lemmas *)

Section ListFacts.
Context {A : Type}.
Implicit Types (l : list A).

Lemma filter_ext_in (P Q : A → Prop) `{!∀ x, Decision (P x), !∀ x, Decision (Q x)} l :
  (∀ x, x ∈ l → (P x ↔ Q x)) → filter P l = filter Q l.
Proof.
  induction l as [|a l IH]; intros HPQ; [done|].
  rewrite !filter_cons.
  rewrite IH by (intros x Hx; apply HPQ; by right).
  apply decide_ext, HPQ. by left.
Qed.

Lemma first_filter_Some (P : A → Prop) `{!∀ x, Decision (P x)} l x :
  first (filter P l) = Some x → x ∈ l ∧ P x.
Proof.
  intros Hh. apply head_Some_elem_of in Hh.
  apply list_elem_of_filter in Hh. tauto.
Qed.

Lemma first_filter_None (P : A → Prop) `{!∀ x, Decision (P x)} l :
  first (filter P l) = None ↔ ∀ x, x ∈ l → ¬ P x.
Proof.
  unfold first. rewrite head_None. split.
  - intros Hnil x Hx HP. by eapply filter_nil_not_elem_of.
  - intros Hall. apply elem_of_nil_inv. intros y Hy.
    apply list_elem_of_filter in Hy as [HP Hy]. by apply (Hall y).
Qed.

Lemma first_filter_unique (P : A → Prop) `{!∀ x, Decision (P x)} l x :
  (∀ y, y ∈ l → P y → y = x) → x ∈ l → P x → first (filter P l) = Some x.
Proof.
  intros Huniq Hx HP.
  destruct (first (filter P l)) as [y|] eqn:E.
  - apply first_filter_Some in E as [? ?]. f_equal. by apply Huniq.
  - rewrite first_filter_None in E. by destruct (E x).
Qed.

Lemma NoDup_fmap_eq {B} (f : A → B) l x y :
  NoDup (f <$> l) → x ∈ l → y ∈ l → f x = f y → x = y.
Proof.
  induction l as [|a l IH]; csimpl; [by inv 2|].
  rewrite NoDup_cons, list_elem_of_fmap. intros [Ha Hl] Hx Hy Hf.
  apply elem_of_cons in Hx, Hy.
  destruct Hx as [->|Hx], Hy as [->|Hy]; [done| | |by apply IH].
  - destruct Ha. by exists y.
  - destruct Ha. by exists x.
Qed.

Lemma NoDup_fmap_filter {B} (f : A → B) (P : A → Prop) `{!∀ x, Decision (P x)} l :
  NoDup (f <$> l) → NoDup (f <$> filter P l).
Proof.
  intros Hnd. apply (sublist_NoDup _ (f <$> l)); [done|].
  apply fmap_sublist, sublist_filter.
Qed.
End ListFacts.

(** ** What the queries return *)

Lemma elem_of_item_join st it t :
  (it, t) ∈ item_join_todo st ↔
  it ∈ items st ∧ t ∈ todos st ∧ Todo.id t = Item.todo_id it.
Proof.
  unfold item_join_todo. rewrite list_elem_of_bind. split.
  - intros (it' & Hin & Hit).
    apply list_elem_of_bind in Hin as (t' & Hin & Ht).
    apply list_elem_of_singleton in Hin. simplify_eq.
    apply list_elem_of_filter in Ht as [Hid Ht]. done.
  - intros (Hit & Ht & Hid). exists it. split; [|done].
    apply list_elem_of_bind. exists t. split; [by left|].
    by apply list_elem_of_filter.
Qed.

Lemma elem_of_item_filter_owned st iid uid it :
  it ∈ item_filter_owned st iid uid ↔ owns_item st uid it ∧ Item.id it = iid.
Proof.
  unfold item_filter_owned, owns_item, item_owner.
  rewrite list_elem_of_fmap, Exists_exists. split.
  - intros ([it' t] & -> & Hin).
    apply list_elem_of_filter in Hin as [[Hi Hu] Hin]. simpl in *.
    apply elem_of_item_join in Hin as (Hit & Ht & Hid).
    split; [|done]. split; [done|]. by exists t.
  - intros [[Hit (t & Ht & Hid & Hu)] Hi]. exists (it, t). split; [done|].
    apply list_elem_of_filter. split; [done|]. by apply elem_of_item_join.
Qed.

Lemma elem_of_item_filter_owned_in st ids uid it :
  it ∈ item_filter_owned_in st ids uid ↔ it ∈ items st ∧ item_selected st uid ids it.
Proof.
  unfold item_filter_owned_in, item_selected, item_owner.
  rewrite list_elem_of_fmap, Exists_exists. split.
  - intros ([it' t] & -> & Hin).
    apply list_elem_of_filter in Hin as [[Hi Hu] Hin]. simpl in *.
    apply elem_of_item_join in Hin as (Hit & Ht & Hid).
    split; [done|]. split; [done|]. by exists t.
  - intros [Hit [Hi (t & Ht & Hid & Hu)]]. exists (it, t). split; [done|].
    apply list_elem_of_filter. split; [done|]. by apply elem_of_item_join.
Qed.

Lemma first_todo_filter_by_Some st tid uid t :
  first (todo_filter_by st tid uid) = Some t → owns_todo st uid t ∧ Todo.id t = tid.
Proof.
  intros H. apply first_filter_Some in H. unfold owns_todo. tauto.
Qed.

Lemma first_todo_filter_by_owner st tid uid t :
  pk_unique st → owns_todo st uid t → Todo.id t = tid →
  first (todo_filter_by st tid uid) = Some t.
Proof.
  intros [Hnd _] [Hin Hu] Hid. apply first_filter_unique; [|done..].
  intros y Hy [Hyid _]. eapply NoDup_fmap_eq; eauto. congruence.
Qed.

Lemma first_todo_filter_by_None st tid uid :
  first (todo_filter_by st tid uid) = None ↔
  ¬ ∃ t, owns_todo st uid t ∧ Todo.id t = tid.
Proof.
  unfold todo_filter_by, owns_todo. rewrite first_filter_None. split.
  - intros Hall (t & [Ht Hu] & Hid). by apply (Hall t).
  - intros Hno t Ht [Hid Hu]. apply Hno. by exists t.
Qed.

Lemma first_item_filter_owned_Some st iid uid it :
  first (item_filter_owned st iid uid) = Some it →
  owns_item st uid it ∧ Item.id it = iid.
Proof.
  intros H. apply head_Some_elem_of in H. by apply elem_of_item_filter_owned.
Qed.

Lemma first_item_filter_owned_None st iid uid :
  first (item_filter_owned st iid uid) = None ↔
  ¬ ∃ it, owns_item st uid it ∧ Item.id it = iid.
Proof.
  unfold first. rewrite head_None. split.
  - intros Hnil (it & Hit). apply elem_of_item_filter_owned in Hit.
    rewrite Hnil in Hit. by apply not_elem_of_nil in Hit.
  - intros Hno. destruct (item_filter_owned st iid uid) as [|y ?] eqn:E; [done|].
    destruct Hno. exists y. apply elem_of_item_filter_owned. rewrite E. by left.
Qed.

Lemma first_item_filter_owned_owner st iid uid it :
  pk_unique st → owns_item st uid it → Item.id it = iid →
  first (item_filter_owned st iid uid) = Some it.
Proof.
  intros [_ Hnd] Hown Hid.
  destruct (first (item_filter_owned st iid uid)) as [y|] eqn:E.
  - apply first_item_filter_owned_Some in E as [[Hy _] Hyid]. f_equal.
    destruct Hown as [Hin _]. eapply NoDup_fmap_eq; eauto. congruence.
  - rewrite first_item_filter_owned_None in E. destruct E. eauto.
Qed.

(** ** Running the session operations *)

Ltac db_unfold :=
  unfold run, mbind, db_bind, mret, db_ret, query, flush_to, commit, rollback,
    try_except, set_item_attr, set_todo_attr, update_item, update_todo_row,
    session_delete_item, session_add_item, session_add_todo;
  simpl.

Lemma filter_all {A} (P : A → Prop) `{!∀ x, Decision (P x)} (l : list A) :
  (∀ x, x ∈ l → P x) → filter P l = l.
Proof.
  induction l as [|a l IH]; intros HP; [done|].
  rewrite filter_cons_True by (apply HP; by left).
  f_equal. apply IH. intros x Hx. apply HP. by right.
Qed.

Lemma for_each_delete_items (l : list Item.t) fault s :
  for_each l session_delete_item fault s =
  (mkSession (committed s)
     (mkStore (todos (pending s))
        (filter (λ r, Item.id r ∉ Item.id <$> l) (items (pending s)))),
   Ok ()).
Proof.
  revert s. induction l as [|x l IH]; intros [c [ts its]]; simpl.
  - db_unfold. do 3 f_equal. symmetry. apply filter_all.
    intros r _. apply not_elem_of_nil.
  - db_unfold. rewrite IH. simpl. do 3 f_equal.
    rewrite list_filter_filter. apply list_filter_iff. intros r.
    rewrite not_elem_of_cons. tauto.
Qed.

Lemma for_each_set_item_status (l : list Item.t) v fault s :
  for_each l (λ item, update_item item (Item.with_status v)) fault s =
  (mkSession (committed s)
     (mkStore (todos (pending s))
        ((λ r, if decide (Item.id r ∈ Item.id <$> l)
               then Item.with_status v r else r) <$> items (pending s))),
   Ok ()).
Proof.
  revert s. induction l as [|x l IH]; intros [c [ts its]]; simpl.
  - db_unfold. do 3 f_equal. rewrite <- (list_fmap_id its) at 1.
    apply list_fmap_ext. by intros i r _.
  - db_unfold. rewrite IH. simpl. do 3 f_equal.
    rewrite <- list_fmap_compose. apply list_fmap_ext. intros i r _. simpl.
    destruct (decide (Item.id r = Item.id x)) as [E|E]; simpl.
    + rewrite (decide_True (P := Item.id r ∈ _ :: _)) by (rewrite E; by left).
      by case_decide.
    + apply decide_ext. rewrite elem_of_cons. tauto.
Qed.

Lemma for_each_set_todo_status (l : list Todo.t) v fault s :
  for_each l (λ t, update_todo_row t (Todo.with_status v)) fault s =
  (mkSession (committed s)
     (mkStore
        ((λ r, if decide (Todo.id r ∈ Todo.id <$> l)
               then Todo.with_status v r else r) <$> todos (pending s))
        (items (pending s))),
   Ok ()).
Proof.
  revert s. induction l as [|x l IH]; intros [c [ts its]]; simpl.
  - db_unfold. do 3 f_equal. rewrite <- (list_fmap_id ts) at 1.
    apply list_fmap_ext. by intros i r _.
  - db_unfold. rewrite IH. simpl. do 3 f_equal.
    rewrite <- list_fmap_compose. apply list_fmap_ext. intros i r _. simpl.
    destruct (decide (Todo.id r = Todo.id x)) as [E|E]; simpl.
    + rewrite (decide_True (P := Todo.id r ∈ _ :: _)) by (rewrite E; by left).
      by case_decide.
    + apply decide_ext. rewrite elem_of_cons. tauto.
Qed.

(** With unique item keys, deleting the rows of [todo.items] by key removes
    exactly the items whose foreign key names the todo. *)
Lemma delete_children_by_key (its : list Item.t) (tid : Z) :
  NoDup (Item.id <$> its) →
  filter (λ r, Item.id r ∉ Item.id <$> filter (λ it, Item.todo_id it = tid) its) its
  = filter (λ r, Item.todo_id r ≠ tid) its.
Proof.
  intros Hnd. apply filter_ext_in. intros r Hr.
  rewrite list_elem_of_fmap. split.
  - intros Hno Htid. apply Hno. exists r. split; [done|].
    by apply list_elem_of_filter.
  - intros Hne (c & Hid & Hc). apply list_elem_of_filter in Hc as [Hct Hc].
    assert (r = c) by (eapply NoDup_fmap_eq; eauto). congruence.
Qed.

Lemma run_session_delete_todo (t : Todo.t) fault s :
  NoDup (Item.id <$> items (pending s)) →
  session_delete_todo t fault s =
  (mkSession (committed s)
     (mkStore (filter (λ r, Todo.id r ≠ Todo.id t) (todos (pending s)))
        (filter (λ r, Item.todo_id r ≠ Todo.id t) (items (pending s)))),
   Ok ()).
Proof.
  destruct s as [c [ts its]]. simpl. intros Hnd.
  unfold session_delete_todo, item_filter_by_todo.
  unfold mbind at 1, db_bind at 1, query at 1. simpl.
  unfold mbind at 1, db_bind at 1. rewrite for_each_delete_items. simpl.
  db_unfold. by rewrite delete_children_by_key.
Qed.

Lemma for_each_delete_todos (l : list Todo.t) fault s :
  NoDup (Item.id <$> items (pending s)) →
  for_each l session_delete_todo fault s =
  (mkSession (committed s)
     (mkStore (filter (λ r, Todo.id r ∉ Todo.id <$> l) (todos (pending s)))
        (filter (λ r, Item.todo_id r ∉ Todo.id <$> l) (items (pending s)))),
   Ok ()).
Proof.
  revert s. induction l as [|x l IH]; intros [c [ts its]]; simpl; intros Hnd.
  - db_unfold. do 3 f_equal; symmetry; apply filter_all;
      intros r _; apply not_elem_of_nil.
  - unfold mbind at 1, db_bind at 1. rewrite run_session_delete_todo by done.
    simpl. rewrite IH by (simpl; by apply NoDup_fmap_filter). simpl.
    do 3 f_equal; rewrite list_filter_filter; apply list_filter_iff; intros r;
      rewrite not_elem_of_cons; tauto.
Qed.

(** ** Running the look-ups of item_logic.py and todo_logic.py *)

Lemma run_get_todo_by_id st tid uid fault :
  run (get_todo_by_id tid uid) fault (clean st)
  = (clean st, Ok (first (todo_filter_by st tid uid))).
Proof. reflexivity. Qed.

Lemma run_get_item_by_id st iid uid fault :
  run (get_item_by_id iid uid) fault (clean st)
  = (clean st, Ok (first (item_filter_owned st iid uid))).
Proof. reflexivity. Qed.

Lemma run_update_todo_None st tid uid data fault :
  first (todo_filter_by st tid uid) = None →
  run (update_todo tid uid data) fault (clean st)
  = (clean st, Ok (None, Some "Todo not found")).
Proof. intros H. unfold update_todo. db_unfold. by rewrite H. Qed.

Lemma run_delete_todo_None st tid uid fault :
  first (todo_filter_by st tid uid) = None →
  run (delete_todo tid uid) fault (clean st)
  = (clean st, Ok (false, Some "Todo not found")).
Proof. intros H. unfold delete_todo. db_unfold. by rewrite H. Qed.

Lemma run_update_item_status_None st iid uid v fault :
  first (item_filter_owned st iid uid) = None →
  run (update_item_status iid uid v) fault (clean st)
  = (clean st, Ok (None, Some item_not_found)).
Proof. intros H. unfold update_item_status. db_unfold. by rewrite H. Qed.

Lemma run_delete_item_None st iid uid fault :
  first (item_filter_owned st iid uid) = None →
  run (delete_item iid uid) fault (clean st)
  = (clean st, Ok (false, Some item_not_found)).
Proof. intros H. unfold delete_item. db_unfold. by rewrite H. Qed.

Lemma run_update_item_status_invalid st iid uid it v fault :
  first (item_filter_owned st iid uid) = Some it →
  v ∉ VALID_STATUSES →
  run (update_item_status iid uid v) fault (clean st)
  = (clean st,
     Ok (None, Some ("Invalid status. Must be one of "
                     +:+ py_repr_list VALID_STATUSES))).
Proof.
  intros H Hv. unfold update_item_status. db_unfold. rewrite H.
  by rewrite decide_True.
Qed.

Lemma run_update_item_status_valid st iid uid it v fault :
  first (item_filter_owned st iid uid) = Some it →
  v ∈ VALID_STATUSES →
  run (update_item_status iid uid v) fault (clean st)
  = after_commit fault st
      (mkStore (todos st)
         ((λ r, if decide (Item.id r = Item.id it)
                then Item.with_status v r else r) <$> items st))
      (Some (Item.with_status v it), None).
Proof.
  intros H Hv. unfold update_item_status. db_unfold. rewrite H.
  rewrite decide_False by (by intros []). db_unfold. by destruct fault.
Qed.

Lemma run_delete_item_Some st iid uid it :
  first (item_filter_owned st iid uid) = Some it →
  run (delete_item iid uid) None (clean st)
  = (clean (mkStore (todos st) (filter (λ r, Item.id r ≠ Item.id it) (items st))),
     Ok (true, None)).
Proof. intros H. unfold delete_item. db_unfold. by rewrite H. Qed.

Lemma run_delete_todo_Some st tid uid t :
  pk_unique st →
  first (todo_filter_by st tid uid) = Some t →
  run (delete_todo tid uid) None (clean st)
  = (clean (mkStore (filter (λ r, Todo.id r ≠ Todo.id t) (todos st))
              (filter (λ r, Item.todo_id r ≠ Todo.id t) (items st))),
     Ok (true, None)).
Proof.
  intros [_ Hnd] H. unfold delete_todo, run.
  unfold mbind at 1, db_bind at 1, query at 1. simpl. rewrite H.
  unfold mbind at 1, db_bind at 1. by rewrite run_session_delete_todo.
Qed.

Lemma opt_set_id o F r :
  (∀ v r, Todo.id (F v r) = Todo.id r) → Todo.id (opt_set o F r) = Todo.id r.
Proof. intros HF. destruct o; simpl; auto. Qed.

Lemma run_opt_assign (o : option pyval) F (todo : Todo.t) fault s :
  match o with
  | Some v => set_todo_attr todo (F v)
  | None => mret todo
  end fault s
  = (mkSession (committed s)
       (mkStore
          ((λ r, if decide (Todo.id r = Todo.id todo) then opt_set o F r else r)
             <$> todos (pending s))
          (items (pending s))),
     Ok (opt_set o F todo)).
Proof.
  destruct s as [c [ts its]], o as [v|]; db_unfold; [done|].
  do 3 f_equal. rewrite <- (list_fmap_id ts) at 1.
  apply list_fmap_ext. intros i r _. simpl. by case_decide.
Qed.

Lemma update_rows_compose (k : Z) (f g : Todo.t → Todo.t) (l : list Todo.t) :
  (∀ r, Todo.id (f r) = Todo.id r) →
  (λ r, if decide (Todo.id r = k) then g r else r)
    <$> ((λ r, if decide (Todo.id r = k) then f r else r) <$> l)
  = (λ r, if decide (Todo.id r = k) then g (f r) else r) <$> l.
Proof.
  intros Hf. rewrite <- list_fmap_compose. apply list_fmap_ext.
  intros i r _. simpl. destruct (decide (Todo.id r = k)) as [E|E].
  - by rewrite decide_True by (by rewrite Hf).
  - by rewrite decide_False.
Qed.

Lemma run_update_todo_Some st tid uid t data :
  first (todo_filter_by st tid uid) = Some t →
  run (update_todo tid uid data) None (clean st)
  = (clean (mkStore
       ((λ r, if decide (Todo.id r = Todo.id t) then merged data r else r)
          <$> todos st)
       (items st)),
     Ok (Some (merged data t), None)).
Proof.
  intros H. unfold update_todo, run.
  unfold mbind at 1, db_bind at 1, query at 1. simpl. rewrite H.
  unfold mbind at 1, db_bind at 1. rewrite run_opt_assign. simpl.
  unfold mbind at 1, db_bind at 1. rewrite run_opt_assign. simpl.
  unfold mbind at 1, db_bind at 1. rewrite run_opt_assign. simpl.
  unfold mbind at 1, db_bind at 1. rewrite run_opt_assign. simpl.
  db_unfold. unfold clean, merged.
  rewrite !opt_set_id by done.
  rewrite !update_rows_compose; [done|intros r; by apply opt_set_id..].
Qed.

(** ** Running the bulk operations *)

Lemma item_filter_owned_in_nil st ids uid :
  item_filter_owned_in st ids uid = [] ↔
  ¬ ∃ it, it ∈ items st ∧ item_selected st uid ids it.
Proof.
  split.
  - intros Hnil (it & Hit). apply elem_of_item_filter_owned_in in Hit.
    rewrite Hnil in Hit. by apply elem_of_nil in Hit.
  - intros Hno. apply elem_of_nil_inv. intros it Hit.
    apply elem_of_item_filter_owned_in in Hit. eauto.
Qed.

Lemma todo_filter_in_nil st ids uid :
  todo_filter_in st ids uid = [] ↔
  ¬ ∃ t, t ∈ todos st ∧ todo_selected uid ids t.
Proof.
  unfold todo_filter_in, todo_selected. split.
  - intros Hnil (t & Ht & Hsel).
    by apply (filter_nil_not_elem_of _ _ t Hnil Hsel).
  - intros Hno. apply elem_of_nil_inv. intros t Ht.
    apply list_elem_of_filter in Ht. destruct Hno. exists t. tauto.
Qed.

Lemma item_key_selected st uid ids r :
  pk_unique st → r ∈ items st →
  Item.id r ∈ Item.id <$> item_filter_owned_in st ids uid ↔
  item_selected st uid ids r.
Proof.
  intros [_ Hnd] Hr. rewrite list_elem_of_fmap. split.
  - intros (c & Hid & Hc). apply elem_of_item_filter_owned_in in Hc as [Hc Hsel].
    assert (r = c) as -> by (eapply NoDup_fmap_eq; eauto). done.
  - intros Hsel. exists r. split; [done|].
    by apply elem_of_item_filter_owned_in.
Qed.

Lemma todo_key_selected st uid ids r :
  pk_unique st → r ∈ todos st →
  Todo.id r ∈ Todo.id <$> todo_filter_in st ids uid ↔ todo_selected uid ids r.
Proof.
  intros [Hnd _] Hr. unfold todo_filter_in. rewrite list_elem_of_fmap. split.
  - intros (c & Hid & Hc). apply list_elem_of_filter in Hc as [Hsel Hc].
    assert (r = c) as -> by (eapply NoDup_fmap_eq; eauto). done.
  - intros Hsel. exists r. split; [done|]. by apply list_elem_of_filter.
Qed.

Lemma parent_key_selected st uid ids (it : Item.t) :
  Item.todo_id it ∈ Todo.id <$> todo_filter_in st ids uid ↔
  Item.todo_id it ∈ ids ∧ item_owner st it uid.
Proof.
  unfold todo_filter_in, item_owner.
  rewrite list_elem_of_fmap, Exists_exists. split.
  - intros (t & Hid & Ht). apply list_elem_of_filter in Ht as [[Hin Hu] Ht].
    split; [congruence|]. exists t. done.
  - intros [Hin (t & Ht & Hid & Hu)]. exists t. split; [done|].
    apply list_elem_of_filter. split; [|done]. split; [congruence|done].
Qed.

Lemma delete_not_status : "delete" ∉ VALID_STATUSES.
Proof. apply (bool_decide_unpack _). by vm_compute. Qed.

Lemma run_bulk_update_items_none st uid ids action fault :
  item_filter_owned_in st ids uid = [] →
  run (bulk_update_items uid ids action) fault (clean st)
  = (clean st, Ok (false, Some item_not_found)).
Proof.
  intros H. unfold bulk_update_items. db_unfold. by rewrite H.
Qed.

Lemma run_bulk_update_items_delete st uid ids fault :
  pk_unique st →
  item_filter_owned_in st ids uid ≠ [] →
  run (bulk_update_items uid ids "delete") fault (clean st)
  = after_commit fault st
      (mkStore (todos st)
         (filter (λ r, ¬ item_selected st uid ids r) (items st)))
      (true, None).
Proof.
  intros Hpk H. unfold bulk_update_items, run.
  unfold mbind at 1, db_bind at 1, query at 1. simpl.
  rewrite decide_False by done. simpl.
  unfold mbind at 1, db_bind at 1. rewrite for_each_delete_items. simpl.
  rewrite (filter_ext_in _ (λ r, ¬ item_selected st uid ids r))
    by (intros r Hr; by rewrite item_key_selected).
  by destruct fault.
Qed.

Lemma run_bulk_update_items_status st uid ids v fault :
  pk_unique st →
  item_filter_owned_in st ids uid ≠ [] →
  v ∈ VALID_STATUSES →
  run (bulk_update_items uid ids v) fault (clean st)
  = after_commit fault st
      (mkStore (todos st)
         ((λ r, if decide (item_selected st uid ids r)
                then Item.with_status v r else r) <$> items st))
      (true, None).
Proof.
  intros Hpk H Hv. unfold bulk_update_items, run.
  unfold mbind at 1, db_bind at 1, query at 1. simpl.
  rewrite decide_False by done.
  rewrite decide_False by (intros ->; by apply delete_not_status in Hv).
  rewrite decide_True by done.
  unfold mbind at 1, db_bind at 1. rewrite for_each_set_item_status. simpl.
  rewrite (list_fmap_ext _
    (λ r, if decide (item_selected st uid ids r)
          then Item.with_status v r else r) (items st)); [by destruct fault|].
  intros i r Hr. apply decide_ext, item_key_selected; [done|].
  by eapply list_elem_of_lookup_2.
Qed.

Lemma run_bulk_update_items_invalid st uid ids action fault :
  item_filter_owned_in st ids uid ≠ [] →
  action ≠ "delete" → action ∉ VALID_STATUSES →
  run (bulk_update_items uid ids action) fault (clean st)
  = (clean st,
     Ok (false, Some ("Invalid action. Must be one of "
                      +:+ py_repr_list VALID_STATUSES +:+ " or 'delete'"))).
Proof.
  intros H Ha Hv. unfold bulk_update_items. db_unfold.
  by rewrite !decide_False by done.
Qed.

Lemma run_bulk_update_todos_none st uid ids action status fault :
  todo_filter_in st ids uid = [] →
  run (bulk_update_todos uid ids action status) fault (clean st)
  = (clean st, Ok (false, Some "No matching todos found")).
Proof.
  intros H. unfold bulk_update_todos. db_unfold. by rewrite H.
Qed.

Lemma run_bulk_update_todos_delete st uid ids status fault :
  pk_unique st →
  todo_filter_in st ids uid ≠ [] →
  run (bulk_update_todos uid ids "delete" status) fault (clean st)
  = after_guarded_commit fault st
      (mkStore (filter (λ r, ¬ todo_selected uid ids r) (todos st))
         (filter (λ it, ¬ (Item.todo_id it ∈ ids ∧ item_owner st it uid))
            (items st))).
Proof.
  intros Hpk H. unfold bulk_update_todos, run, try_except.
  unfold mbind at 1, db_bind at 1, query at 1. simpl.
  rewrite decide_False by done. simpl.
  unfold mbind at 1, db_bind at 1.
  rewrite for_each_delete_todos by (simpl; apply Hpk). simpl.
  rewrite (filter_ext_in _ (λ r, ¬ todo_selected uid ids r) (todos st))
    by (intros r Hr; by rewrite todo_key_selected).
  rewrite (list_filter_iff _
    (λ it, ¬ (Item.todo_id it ∈ ids ∧ item_owner st it uid)) (items st))
    by (intros r; by rewrite parent_key_selected).
  by destruct fault.
Qed.

Lemma run_bulk_update_todos_status st uid ids status fault :
  pk_unique st →
  todo_filter_in st ids uid ≠ [] →
  truthy status = true →
  run (bulk_update_todos uid ids "update_status" status) fault (clean st)
  = after_guarded_commit fault st
      (mkStore
         ((λ r, if decide (todo_selected uid ids r)
                then Todo.with_status status r else r) <$> todos st)
         (items st)).
Proof.
  intros Hpk H Hs. unfold bulk_update_todos, run, try_except.
  unfold mbind at 1, db_bind at 1, query at 1. simpl.
  rewrite decide_False by done. rewrite Hs. simpl.
  unfold mbind at 1, db_bind at 1. rewrite for_each_set_todo_status. simpl.
  rewrite (list_fmap_ext _
    (λ r, if decide (todo_selected uid ids r)
          then Todo.with_status status r else r) (todos st)); [by destruct fault|].
  intros i r Hr. apply decide_ext, todo_key_selected; [done|].
  by eapply list_elem_of_lookup_2.
Qed.

Lemma run_bulk_update_todos_missing_status st uid ids status fault :
  todo_filter_in st ids uid ≠ [] →
  truthy status = false →
  run (bulk_update_todos uid ids "update_status" status) fault (clean st)
  = (clean st, Ok (false, Some "Missing status for bulk update")).
Proof.
  intros H Hs. unfold bulk_update_todos. db_unfold.
  rewrite decide_False by done. by rewrite Hs.
Qed.

Lemma run_bulk_update_todos_invalid st uid ids action status fault :
  todo_filter_in st ids uid ≠ [] →
  action ≠ "delete" → action ≠ "update_status" →
  run (bulk_update_todos uid ids action status) fault (clean st)
  = (clean st, Ok (false, Some "Invalid action")).
Proof.
  intros H Ha Hv. unfold bulk_update_todos. db_unfold.
  by rewrite !decide_False by done.
Qed.

(** * The ownership-scoped query layer *)

Lemma pk_unique_sample : pk_unique sample.
Proof. apply (bool_decide_unpack _). by vm_compute. Defined.

(** C1. Every look-up of a Todo or an Item (read-one, update, delete) by
    entity id and requesting user finds the entity exactly when a row with
    that id exists and its ownership chain (Todo → user_id, or Item → Todo →
    user_id) ends in the requesting user.  Then read-one returns the row,
    and update and delete go through (for [update_item_status], with a
    status of the vocabulary).  In every other case, whether no row has the
    id or the row belongs to someone else, each operation gives its one
    not-found answer and leaves the store as it was, so the two cases
    cannot be told apart. *)
Theorem lookup_scoped_to_owner (st : Store) (uid : Z) :
  pk_unique st →
  (∀ tid t fault,
     run (get_todo_by_id tid uid) fault (clean st) = (clean st, Ok (Some t))
     ↔ owns_todo st uid t ∧ Todo.id t = tid) ∧
  (∀ iid it fault,
     run (get_item_by_id iid uid) fault (clean st) = (clean st, Ok (Some it))
     ↔ owns_item st uid it ∧ Item.id it = iid) ∧
  (∀ tid t, owns_todo st uid t → Todo.id t = tid →
     (∀ data, ∃ st' t',
        run (update_todo tid uid data) None (clean st)
        = (clean st', Ok (Some t', None))
        ∧ Todo.id t' = tid ∧ Todo.user_id t' = uid) ∧
     (∃ st', run (delete_todo tid uid) None (clean st)
             = (clean st', Ok (true, None)))) ∧
  (∀ iid it, owns_item st uid it → Item.id it = iid →
     (∀ v, v ∈ VALID_STATUSES → ∃ st' it',
        run (update_item_status iid uid v) None (clean st)
        = (clean st', Ok (Some it', None))
        ∧ Item.id it' = iid) ∧
     (∃ st', run (delete_item iid uid) None (clean st)
             = (clean st', Ok (true, None)))) ∧
  (∀ tid, (¬ ∃ t, owns_todo st uid t ∧ Todo.id t = tid) → ∀ fault,
     run (get_todo_by_id tid uid) fault (clean st) = (clean st, Ok None) ∧
     (∀ data, run (update_todo tid uid data) fault (clean st)
              = (clean st, Ok (None, Some "Todo not found"))) ∧
     run (delete_todo tid uid) fault (clean st)
     = (clean st, Ok (false, Some "Todo not found"))) ∧
  (∀ iid, (¬ ∃ it, owns_item st uid it ∧ Item.id it = iid) → ∀ fault,
     run (get_item_by_id iid uid) fault (clean st) = (clean st, Ok None) ∧
     (∀ v, run (update_item_status iid uid v) fault (clean st)
           = (clean st,
              Ok (None, Some "Item not found or you don't have permission"))) ∧
     run (delete_item iid uid) fault (clean st)
     = (clean st, Ok (false, Some "Item not found or you don't have permission"))).
Proof.
  intros Hpk. repeat apply conj.
  - intros tid t fault. rewrite run_get_todo_by_id. split.
    + intros [= H]. by apply first_todo_filter_by_Some.
    + intros [Hown Hid]. by rewrite (first_todo_filter_by_owner st tid uid t).
  - intros iid it fault. rewrite run_get_item_by_id. split.
    + intros [= H]. by apply first_item_filter_owned_Some.
    + intros [Hown Hid]. by rewrite (first_item_filter_owned_owner st iid uid it).
  - intros tid t Hown Hid.
    pose proof (first_todo_filter_by_owner st tid uid t Hpk Hown Hid) as Hq.
    split.
    + intros data. eexists _, _.
      rewrite (run_update_todo_Some st tid uid t data Hq).
      split; [reflexivity|]. unfold merged.
      rewrite !opt_set_id by done. split; [done|].
      destruct Hown as [_ <-].
      by destruct (data !! "title"), (data !! "description"),
        (data !! "status"), (data !! "completed").
    + eexists. by rewrite (run_delete_todo_Some st tid uid t Hpk Hq).
  - intros iid it Hown Hid.
    pose proof (first_item_filter_owned_owner st iid uid it Hpk Hown Hid) as Hq.
    split.
    + intros v Hv. eexists _, _.
      rewrite (run_update_item_status_valid st iid uid it v None Hq Hv).
      split; [reflexivity|done].
    + eexists. by rewrite (run_delete_item_Some st iid uid it Hq).
  - intros tid Hno fault. apply first_todo_filter_by_None in Hno.
    rewrite run_get_todo_by_id, Hno. split; [done|]. split.
    + intros data. by apply run_update_todo_None.
    + by apply run_delete_todo_None.
  - intros iid Hno fault. apply first_item_filter_owned_None in Hno.
    rewrite run_get_item_by_id, Hno. split; [done|]. split.
    + intros v. by apply run_update_item_status_None.
    + by apply run_delete_item_None.
Qed.

(** On the sample store, user 1 reads item 1, which is theirs, and gets
    the not-found answer for item 4 (another user's) as for item 9 (no
    such row). *)
Lemma lookup_scoped_to_owner_witness :
  pk_unique sample ∧
  run (get_item_by_id 1 1) None (clean sample)
  = (clean sample, Ok (Some (sample_item 1 1))) ∧
  run (delete_item 4 1) None (clean sample)
  = (clean sample, Ok (false, Some "Item not found or you don't have permission")) ∧
  run (delete_item 9 1) None (clean sample)
  = (clean sample, Ok (false, Some "Item not found or you don't have permission")).
Proof.
  split; [exact pk_unique_sample|].
  destruct (lookup_scoped_to_owner sample 1 pk_unique_sample)
    as (_ & Hget & _ & _ & _ & Hnone).
  split; [|split].
  - apply Hget. split; [|reflexivity].
    apply (bool_decide_unpack _). by vm_compute.
  - apply (Hnone 4). apply first_item_filter_owned_None. reflexivity.
  - apply (Hnone 9). apply first_item_filter_owned_None. reflexivity.
Defined.

(** * Item status validation *)

(** C4. When the owner of an item calls [update_item_status] with a status
    outside the vocabulary, the call is rejected with the "Invalid status"
    message that lists the three allowed values, and nothing is written:
    the session and the stored item are as before. *)
Theorem update_item_status_rejects_invalid
    (st : Store) (iid uid : Z) (it : Item.t) (new_status : string)
    (fault : option string) :
  owns_item st uid it → Item.id it = iid →
  new_status ∉ VALID_STATUSES →
  run (update_item_status iid uid new_status) fault (clean st)
  = (clean st,
     Ok (None,
         Some "Invalid status. Must be one of ['Pending', 'Partially Completed', 'Completed']")).
Proof.
  intros Hown Hid Hv.
  destruct (first (item_filter_owned st iid uid)) as [it'|] eqn:E.
  - by rewrite (run_update_item_status_invalid st iid uid it' new_status fault E Hv).
  - apply first_item_filter_owned_None in E. destruct E. eauto.
Qed.

Lemma update_item_status_rejects_invalid_witness :
  run (update_item_status 1 1 "Done") None (clean sample)
  = (clean sample,
     Ok (None,
         Some "Invalid status. Must be one of ['Pending', 'Partially Completed', 'Completed']")).
Proof.
  apply (update_item_status_rejects_invalid sample 1 1 (sample_item 1 1)).
  - apply (bool_decide_unpack _). by vm_compute.
  - reflexivity.
  - apply (bool_decide_unpack _). by vm_compute.
Defined.

(** C10. [update_item_status] settles ownership before it looks at the
    status.  For a caller who does not own the item, or for an id that no
    item has, the answer is "Item not found or you don't have permission"
    whatever [new_status] is; so whoever receives the "Invalid status"
    answer owns an item with that id. *)
Theorem update_item_status_checks_owner_first (st : Store) (iid uid : Z) :
  ((¬ ∃ it, owns_item st uid it ∧ Item.id it = iid) →
   ∀ new_status fault,
     run (update_item_status iid uid new_status) fault (clean st)
     = (clean st, Ok (None, Some "Item not found or you don't have permission")))
  ∧
  (∀ new_status fault s',
     run (update_item_status iid uid new_status) fault (clean st)
     = (s', Ok (None,
           Some "Invalid status. Must be one of ['Pending', 'Partially Completed', 'Completed']")) →
     ∃ it, owns_item st uid it ∧ Item.id it = iid).
Proof.
  split.
  - intros Hno v fault. apply run_update_item_status_None.
    by apply first_item_filter_owned_None.
  - intros v fault s' Hrun.
    destruct (first (item_filter_owned st iid uid)) as [it|] eqn:E.
    + exists it. by apply first_item_filter_owned_Some.
    + rewrite (run_update_item_status_None st iid uid v fault E) in Hrun.
      discriminate Hrun.
Qed.

Lemma update_item_status_checks_owner_first_witness :
  run (update_item_status 4 1 "Done") None (clean sample)
  = (clean sample, Ok (None, Some "Item not found or you don't have permission"))
  ∧ run (update_item_status 4 1 "Completed") None (clean sample)
  = (clean sample, Ok (None, Some "Item not found or you don't have permission")).
Proof.
  assert (¬ ∃ it, owns_item sample 1 it ∧ Item.id it = 4) as Hno.
  { apply first_item_filter_owned_None. reflexivity. }
  destruct (update_item_status_checks_owner_first sample 4 1) as [H _].
  split; apply (H Hno).
Defined.

(** * Deleting a Todo *)

(** C5. A Todo with N items, N ≥ 0, deleted by its owner: the call
    succeeds, and the one commit removes the Todo and its N items and no
    other row, so no item refers to the deleted Todo afterwards.  If that
    commit fails, neither the Todo nor any of its items is removed. *)
Theorem delete_todo_cascades
    (st : Store) (tid uid : Z) (t : Todo.t) (N : nat) :
  pk_unique st → owns_todo st uid t → Todo.id t = tid →
  length (item_filter_by_todo st tid) = N →
  ∃ st',
    run (delete_todo tid uid) None (clean st) = (clean st', Ok (true, None)) ∧
    (∀ r, r ∈ todos st' ↔ r ∈ todos st ∧ Todo.id r ≠ tid) ∧
    (∀ r, r ∈ items st' ↔ r ∈ items st ∧ Item.todo_id r ≠ tid) ∧
    item_filter_by_todo st' tid = [] ∧
    (length (items st') + N = length (items st))%nat ∧
    (∀ e, ∃ s', run (delete_todo tid uid) (Some e) (clean st) = (s', Raise e)
                ∧ committed s' = st).
Proof.
  intros Hpk Hown Hid HN.
  pose proof (first_todo_filter_by_owner st tid uid t Hpk Hown Hid) as Hq.
  eexists. split; [by rewrite (run_delete_todo_Some st tid uid t Hpk Hq)|].
  simpl. rewrite Hid. repeat apply conj.
  - intros r. rewrite list_elem_of_filter. tauto.
  - intros r. rewrite list_elem_of_filter. tauto.
  - unfold item_filter_by_todo. simpl. apply elem_of_nil_inv. intros r Hr.
    apply list_elem_of_filter in Hr as [Heq Hr].
    apply list_elem_of_filter in Hr as [Hne _]. done.
  - subst N. unfold item_filter_by_todo.
    rewrite <- (Permutation_length
      (filter_app_complement (λ it, Item.todo_id it = tid) (items st))).
    rewrite length_app. lia.
  - intros e. eexists. unfold delete_todo, run.
    unfold mbind at 1, db_bind at 1, query at 1. simpl. rewrite Hq.
    unfold mbind at 1, db_bind at 1.
    rewrite run_session_delete_todo by (simpl; apply Hpk).
    simpl. split; reflexivity.
Qed.

(** Todo 1 of the sample store has two items. *)
Lemma delete_todo_cascades_witness :
  ∃ st',
    run (delete_todo 1 1) None (clean sample) = (clean st', Ok (true, None)) ∧
    item_filter_by_todo st' 1 = [] ∧
    (length (items st') + 2 = length (items sample))%nat.
Proof.
  destruct (delete_todo_cascades sample 1 1 (sample_todo 1 1) 2)
    as (st' & Hrun & _ & _ & Hnone & Hlen & _).
  - exact pk_unique_sample.
  - apply (bool_decide_unpack _). by vm_compute.
  - reflexivity.
  - reflexivity.
  - exists st'. auto.
Defined.

(** * Updating a Todo *)

(** C7. [update_todo] by the owner with a payload whose values fit the
    columns (a string for title, a string or null for description and
    status, a boolean or null for completed): each of title, description,
    status and completed that the payload has takes the value supplied;
    each one it lacks keeps its value, and so do id and user_id, whatever
    else the payload holds.  The row is stored in the place of the old one
    and no other row changes. *)
Theorem update_todo_merges_supplied_fields
    (st : Store) (tid uid : Z) (t : Todo.t) (data : TodoPayload) :
  pk_unique st → owns_todo st uid t → Todo.id t = tid →
  ∃ t',
    run (update_todo tid uid data) None (clean st)
    = (clean (mkStore
         ((λ r, if decide (Todo.id r = tid) then t' else r) <$> todos st)
         (items st)),
       Ok (Some t', None)) ∧
    Todo.title t' = default (Todo.title t) (data !! "title") ∧
    Todo.description t' = default (Todo.description t) (data !! "description") ∧
    Todo.status t' = default (Todo.status t) (data !! "status") ∧
    Todo.completed t' = default (Todo.completed t) (data !! "completed") ∧
    Todo.id t' = Todo.id t ∧
    Todo.user_id t' = Todo.user_id t.
Proof.
  intros Hpk Hown Hid.
  pose proof (first_todo_filter_by_owner st tid uid t Hpk Hown Hid) as Hq.
  exists (merged data t). split.
  - rewrite (run_update_todo_Some st tid uid t data Hq). rewrite Hid.
    do 3 f_equal. apply list_fmap_ext. intros i r Hr. simpl.
    case_decide as Hr_id; [|done]. f_equal.
    apply (NoDup_fmap_eq Todo.id (todos st)); [apply Hpk| |apply Hown|congruence].
    by eapply list_elem_of_lookup_2.
  - unfold merged.
    destruct (data !! "title"), (data !! "description"),
      (data !! "status"), (data !! "completed"); done.
Qed.

(** The payload sets the title and also carries a user_id, which is not
    one of the four keys: the title changes, the owner does not. *)
Lemma update_todo_merges_supplied_fields_witness :
  ∃ t',
    run (update_todo 1 1 payload_title_and_owner) None (clean sample)
    = (clean (mkStore [t'; sample_todo 2 1; sample_todo 3 2] (items sample)),
       Ok (Some t', None)) ∧
    Todo.title t' = PyStr "New" ∧
    Todo.status t' = PyStr "In Progress" ∧
    Todo.user_id t' = 1.
Proof.
  destruct (update_todo_merges_supplied_fields sample 1 1 (sample_todo 1 1)
              payload_title_and_owner)
    as (t' & Hrun & Htitle & _ & Hstatus & _ & _ & Huser).
  - exact pk_unique_sample.
  - apply (bool_decide_unpack _). by vm_compute.
  - reflexivity.
  - exists t'. split; [exact Hrun|]. split; [exact Htitle|].
    split; [exact Hstatus|exact Huser].
Defined.

(** * Bulk operations *)





(** C9 as stated does not hold: with "update_status" and no status, but no
    requested id that is a Todo of the caller, the answer is the not-found
    one. *)
Lemma missing_status_error_counterexample :
  truthy PyNone = false ∧
  run (bulk_update_todos 1 [3] "update_status" PyNone) None (clean sample)
  = (clean sample, Ok (false, Some "No matching todos found")) ∧
  run (bulk_update_todos 1 [3] "update_status" PyNone) None (clean sample)
  ≠ (clean sample, Ok (false, Some "Missing status for bulk update")).
Proof.
  split; [reflexivity|]. split; [reflexivity|]. discriminate.
Qed.

(** C9, amended. [bulk_update_todos] with action "update_status" and a
    status that is missing or empty (falsy): when some requested id is a
    Todo of the caller, it fails with "Missing status for bulk update";
    when none is, the ownership filter comes first and it fails with "No
    matching todos found".  Either way no Todo is changed. *)
Theorem bulk_status_required_after_filter
    (st : Store) (uid : Z) (ids : list Z) (status : pyval)
    (fault : option string) :
  truthy status = false →
  ((∃ t, t ∈ todos st ∧ todo_selected uid ids t) →
   run (bulk_update_todos uid ids "update_status" status) fault (clean st)
   = (clean st, Ok (false, Some "Missing status for bulk update")))
  ∧
  ((¬ ∃ t, t ∈ todos st ∧ todo_selected uid ids t) →
   run (bulk_update_todos uid ids "update_status" status) fault (clean st)
   = (clean st, Ok (false, Some "No matching todos found"))).
Proof.
  intros Hs. split.
  - intros Hsel. apply run_bulk_update_todos_missing_status; [|done].
    rewrite todo_filter_in_nil. by intros [].
  - intros Hno. apply run_bulk_update_todos_none. by apply todo_filter_in_nil.
Qed.

Lemma bulk_status_required_after_filter_witness :
  run (bulk_update_todos 1 [1; 3] "update_status" (PyStr "")) None (clean sample)
  = (clean sample, Ok (false, Some "Missing status for bulk update")).
Proof.
  destruct (bulk_status_required_after_filter sample 1 [1; 3] (PyStr "") None)
    as [Hsome _].
  - reflexivity.
  - apply Hsome. exists (sample_todo 1 1).
    apply (bool_decide_unpack _). by vm_compute.
Defined.

(** [bulk_update_items] has no handler around its commit: a failure
    reaches the caller as the exception, with nothing committed. *)
Lemma bulk_update_items_commit_failure_propagates
    (st : Store) (uid : Z) (ids : list Z) (action e : string) :
  pk_unique st →
  (∃ it, it ∈ items st ∧ item_selected st uid ids it) →
  action = "delete" ∨ action ∈ VALID_STATUSES →
  ∃ s', run (bulk_update_items uid ids action) (Some e) (clean st)
        = (s', Raise e)
        ∧ committed s' = st.
Proof.
  intros Hpk Hsel Hact.
  assert (item_filter_owned_in st ids uid ≠ []) as Hne.
  { rewrite item_filter_owned_in_nil. by intros []. }
  destruct Hact as [->|Hv].
  - rewrite run_bulk_update_items_delete by done. by eexists.
  - rewrite run_bulk_update_items_status by done. by eexists.
Qed.

(** What [bulk_update_todos] does when its commit fails with an exception
    [e]: the handler rolls the session back, so that no Todo and no Item is
    left modified, and returns [(False, str(e))]. *)
Lemma bulk_update_todos_commit_failure_returns_text
    (st : Store) (uid : Z) (ids : list Z) (action : string) (status : pyval)
    (e : string) :
  pk_unique st →
  (∃ t, t ∈ todos st ∧ todo_selected uid ids t) →
  action = "delete" ∨ (action = "update_status" ∧ truthy status = true) →
  run (bulk_update_todos uid ids action status) (Some e) (clean st)
  = (clean st, Ok (false, Some e)).
Proof.
  intros Hpk Hsel Hact.
  assert (todo_filter_in st ids uid ≠ []) as Hne.
  { rewrite todo_filter_in_nil. by intros []. }
  destruct Hact as [->|[-> Hs]].
  - by rewrite run_bulk_update_todos_delete.
  - by rewrite run_bulk_update_todos_status.
Qed.

Lemma bulk_update_todos_commit_failure_returns_text_witness :
  run (bulk_update_todos 1 [1; 3] "update_status" (PyStr "Completed"))
    (Some "disk I/O error") (clean sample)
  = (clean sample, Ok (false, Some "disk I/O error")).
Proof.
  apply bulk_update_todos_commit_failure_returns_text.
  - exact pk_unique_sample.
  - exists (sample_todo 1 1). apply (bool_decide_unpack _). by vm_compute.
  - right. split; reflexivity.
Defined.

(** C6 fails on the code, on both bulk operations.  The commit of a bulk
    delete fails with "database is locked".  [bulk_update_todos] rolls
    back, but what it reports to the caller is that text of the exception,
    not the generic "Internal server error" of the handlers of
    auth_logic.py.  [bulk_update_items] has no handler at all: the
    exception itself reaches the caller in the place of a report (nothing
    is committed). *)
Theorem bulk_failure_report_diverges :
  run (bulk_update_todos 1 [1] "delete" PyNone) (Some "database is locked")
    (clean sample)
  = (clean sample, Ok (false, Some "database is locked"))
  ∧
  run (bulk_update_todos 1 [1] "delete" PyNone) (Some "database is locked")
    (clean sample)
  ≠ (clean sample, Ok (false, Some "Internal server error"))
  ∧
  ∃ s',
    run (bulk_update_items 1 [1] "delete") (Some "database is locked")
      (clean sample)
    = (s', Raise "database is locked")
    ∧ committed s' = sample.
Proof.
  split; [reflexivity|]. split; [discriminate|].
  eexists. split; [vm_compute; reflexivity|]. reflexivity.
Qed.

(** * Pagination *)

Lemma run_get_items_for_todo_Some st tid uid page per_page t fault :
  first (todo_filter_by st tid uid) = Some t →
  run (get_items_for_todo tid uid page per_page) fault (clean st)
  = (clean st,
     Ok (Some (paginate (item_filter_by_todo st tid) page (Z.min per_page 100)),
         None)).
Proof. intros H. unfold get_items_for_todo. db_unfold. by rewrite H. Qed.

Lemma run_get_items_for_todo_None st tid uid page per_page fault :
  first (todo_filter_by st tid uid) = None →
  run (get_items_for_todo tid uid page per_page) fault (clean st)
  = (clean st, Ok (None, Some todo_not_found_or_permission)).
Proof. intros H. unfold get_items_for_todo. db_unfold. by rewrite H. Qed.

Lemma paginate_per_page {A} (q : list A) (page per_page : Z) :
  1 ≤ per_page → pg_per_page (paginate q page per_page) = per_page.
Proof. intros H. unfold paginate. simpl. by rewrite decide_False by lia. Qed.

Lemma paginate_length {A} (q : list A) (page per_page : Z) :
  1 ≤ per_page →
  (length (pg_items (paginate q page per_page)) ≤ Z.to_nat per_page)%nat.
Proof.
  intros H. unfold paginate. simpl. rewrite decide_False by lia.
  rewrite length_take. lia.
Qed.

Lemma paginate_first_page_length {A} (q : list A) (per_page : Z) :
  1 ≤ per_page →
  length (pg_items (paginate q 1 per_page))
  = (Z.to_nat per_page `min` length q)%nat.
Proof.
  intros H. unfold paginate. simpl. rewrite decide_False by lia.
  by rewrite length_take.
Qed.

(** C8. An Item listing ([get_items_for_todo]) passes [min(per_page, 100)]
    on as the page size: a request with [per_page > 100] gives what
    [per_page = 100] gives, the page size reported is the clamped one and
    the page has at most 100 items.  A Todo listing ([get_todos]) passes
    [per_page] on as it is: its first page has [per_page] todos whenever
    the user has that many, 100 or more alike. *)
Theorem item_listing_clamps_per_page (st : Store) (uid page per_page : Z) :
  (∀ tid fault, 100 < per_page →
     run (get_items_for_todo tid uid page per_page) fault (clean st)
     = run (get_items_for_todo tid uid page 100) fault (clean st)) ∧
  (∀ tid t fault, owns_todo st uid t → Todo.id t = tid → 1 ≤ per_page →
     ∃ pg,
       run (get_items_for_todo tid uid page per_page) fault (clean st)
       = (clean st, Ok (Some pg, None)) ∧
       pg = paginate (item_filter_by_todo st tid) page (Z.min per_page 100) ∧
       pg_per_page pg = Z.min per_page 100 ∧
       (length (pg_items pg) ≤ 100)%nat) ∧
  (∀ fault,
     run (get_todos uid page per_page) fault (clean st)
     = (clean st,
        Ok (pg_items (paginate (todo_filter_by_user st uid) page per_page)))) ∧
  (∀ fault, 1 ≤ per_page →
     ∃ l, run (get_todos uid 1 per_page) fault (clean st) = (clean st, Ok l) ∧
          length l
          = (Z.to_nat per_page `min` length (todo_filter_by_user st uid))%nat).
Proof.
  repeat apply conj.
  - intros tid fault Hbig.
    destruct (first (todo_filter_by st tid uid)) as [t|] eqn:E.
    + rewrite !(run_get_items_for_todo_Some st tid uid _ _ t) by done.
      by rewrite Z.min_r, Z.min_id by lia.
    + by rewrite !run_get_items_for_todo_None.
  - intros tid t fault Hown Hid Hpp.
    destruct (first (todo_filter_by st tid uid)) as [t'|] eqn:E.
    + eexists. rewrite (run_get_items_for_todo_Some st tid uid _ _ t') by done.
      split; [reflexivity|]. split; [reflexivity|]. split.
      * apply paginate_per_page. lia.
      * etrans; [apply paginate_length; lia|]. lia.
    + apply first_todo_filter_by_None in E. destruct E. eauto.
  - reflexivity.
  - intros fault Hpp. eexists. split; [reflexivity|].
    by apply paginate_first_page_length.
Qed.

(** Asked for 150 rows a page, the item listing gives 100 and says so; the
    todo listing gives all 150. *)
Lemma item_listing_clamps_per_page_witness :
  (∃ pg,
     run (get_items_for_todo 1 1 1 150) None (clean crowded)
     = (clean crowded, Ok (Some pg, None)) ∧
     pg_per_page pg = 100 ∧ length (pg_items pg) = 100%nat) ∧
  (∃ l, run (get_todos 1 1 150) None (clean crowded) = (clean crowded, Ok l) ∧
        length l = 150%nat).
Proof.
  destruct (item_listing_clamps_per_page crowded 1 1 150)
    as (_ & Hitems & _ & Htodos).
  split.
  - destruct (Hitems 1 (sample_todo 1 1) None) as (pg & Hrun & Hpg & Hpp & _).
    + apply (bool_decide_unpack _). by vm_compute.
    + reflexivity.
    + lia.
    + exists pg. split; [exact Hrun|]. split; [exact Hpp|].
      rewrite Hpg. by vm_compute.
  - destruct (Htodos None) as (l & Hrun & Hlen); [lia|].
    exists l. split; [exact Hrun|]. rewrite Hlen. by vm_compute.
Defined.

(** * The status vocabulary of Items *)

Lemma run_add_item_to_todo_Some st tid uid t content due_date status fault :
  first (todo_filter_by st tid uid) = Some t →
  run (add_item_to_todo tid uid content due_date status) fault (clean st)
  = let item := Item.mk (next_id (Item.id <$> items st)) content status
                  due_date (Todo.id t) in
    after_commit fault st (mkStore (todos st) (items st ++ [item]))
      (Some item, None).
Proof.
  intros H. unfold add_item_to_todo. db_unfold. rewrite H. db_unfold.
  by destruct fault.
Qed.

(** [update_item_status] and [bulk_update_items] check the status against
    [VALID_STATUSES] before they assign it, so they keep the statuses of
    the stored items within the vocabulary. *)
Lemma update_item_status_keeps_vocabulary st iid uid v fault s' r :
  statuses_valid st →
  run (update_item_status iid uid v) fault (clean st) = (s', r) →
  statuses_valid (committed s').
Proof.
  intros Hst.
  destruct (first (item_filter_owned st iid uid)) as [it|] eqn:E.
  - destruct (decide (v ∈ VALID_STATUSES)) as [Hv|Hv].
    + rewrite (run_update_item_status_valid st iid uid it v fault E Hv).
      destruct fault; intros [= <- <-]; simpl; [done|].
      unfold statuses_valid in *. simpl. apply Forall_fmap.
      eapply Forall_impl; [exact Hst|]. intros r Hr. simpl. by case_decide.
    + rewrite (run_update_item_status_invalid st iid uid it v fault E Hv).
      by intros [= <- <-].
  - rewrite (run_update_item_status_None st iid uid v fault E).
    by intros [= <- <-].
Qed.

Lemma bulk_update_items_keeps_vocabulary st uid ids action fault s' r :
  pk_unique st → statuses_valid st →
  run (bulk_update_items uid ids action) fault (clean st) = (s', r) →
  statuses_valid (committed s').
Proof.
  intros Hpk Hst.
  destruct (decide (item_filter_owned_in st ids uid = [])) as [Hnil|Hsel].
  { rewrite run_bulk_update_items_none by done. by intros [= <- <-]. }
  destruct (decide (action = "delete")) as [->|Hdel].
  { rewrite run_bulk_update_items_delete by done.
    destruct fault; intros [= <- <-]; simpl; [done|].
    unfold statuses_valid in *. simpl. rewrite Forall_forall in *.
    intros x Hx. apply Hst. apply list_elem_of_filter in Hx. tauto. }
  destruct (decide (action ∈ VALID_STATUSES)) as [Hv|Hv].
  { rewrite run_bulk_update_items_status by done.
    destruct fault; intros [= <- <-]; simpl; [done|].
    unfold statuses_valid in *. simpl. apply Forall_fmap.
    eapply Forall_impl; [exact Hst|]. intros r Hr. simpl. by case_decide. }
  rewrite run_bulk_update_items_invalid by done. by intros [= <- <-].
Qed.

(** [add_item_to_todo] stores whatever status it is given. *)
Lemma add_item_to_todo_stores_given_status
    st tid uid t content due_date status :
  owns_todo st uid t → Todo.id t = tid →
  ∃ st' it,
    run (add_item_to_todo tid uid content due_date status) None (clean st)
    = (clean st', Ok (Some it, None)) ∧
    it ∈ items st' ∧ Item.status it = status.
Proof.
  intros Hown Hid.
  destruct (first (todo_filter_by st tid uid)) as [t'|] eqn:E.
  - eexists _, _.
    rewrite (run_add_item_to_todo_Some st tid uid t' _ _ _ None E). simpl.
    split; [reflexivity|]. split; [|done].
    apply elem_of_app. right. by left.
  - apply first_todo_filter_by_None in E. destruct E. eauto.
Qed.

(** C3 fails for [add_item_to_todo]: the owner of todo 1 adds an item with
    status "Done", which is not in the vocabulary, and the item is
    committed with that status. *)
Theorem add_item_to_todo_stores_status_outside_vocabulary :
  statuses_valid sample ∧
  ("Done" ∉ VALID_STATUSES) ∧
  run (add_item_to_todo 1 1 "x" None "Done") None (clean sample)
  = (clean (mkStore (todos sample)
       (items sample ++ [Item.mk 5 "x" "Done" None 1])),
     Ok (Some (Item.mk 5 "x" "Done" None 1), None)) ∧
  ¬ statuses_valid
      (mkStore (todos sample) (items sample ++ [Item.mk 5 "x" "Done" None 1])).
Proof.
  split; [apply (bool_decide_unpack _); by vm_compute|].
  split; [apply (bool_decide_unpack _); by vm_compute|].
  split; [reflexivity|].
  apply (bool_decide_unpack _). by vm_compute.
Qed.

(** * Further properties of item_logic.py *)

Lemma next_id_fresh (ids : list Z) (x : Z) : x ∈ ids → x < next_id ids.
Proof.
  unfold next_id. induction ids as [|y ids IH]; simpl.
  - by intros ?%elem_of_nil.
  - intros [->|Hx]%elem_of_cons; [lia|]. specialize (IH Hx). lia.
Qed.

Lemma next_id_not_in (ids : list Z) : next_id ids ∉ ids.
Proof. intros H%next_id_fresh. lia. Qed.

Lemma pk_unique_add_item st (it : Item.t) :
  pk_unique st → Item.id it = next_id (Item.id <$> items st) →
  pk_unique (mkStore (todos st) (items st ++ [it])).
Proof.
  intros [Ht Hi] Hid. split; [done|]. simpl.
  rewrite fmap_app. apply NoDup_app. split; [done|]. split.
  - intros x Hx [->|[]%elem_of_nil]%elem_of_cons.
    rewrite Hid in Hx. by apply next_id_not_in in Hx.
  - apply NoDup_singleton.
Qed.

Lemma pk_unique_add_todo st (t : Todo.t) :
  pk_unique st → Todo.id t = next_id (Todo.id <$> todos st) →
  pk_unique (mkStore (todos st ++ [t]) (items st)).
Proof.
  intros [Ht Hi] Hid. split; [|done]. simpl.
  rewrite fmap_app. apply NoDup_app. split; [done|]. split.
  - intros x Hx [->|[]%elem_of_nil]%elem_of_cons.
    rewrite Hid in Hx. by apply next_id_not_in in Hx.
  - apply NoDup_singleton.
Qed.

Lemma fmap_key_preserved {A} (key : A → Z) (f : A → A) (l : list A) :
  (∀ r, key (f r) = key r) → key <$> (f <$> l) = key <$> l.
Proof.
  intros Hf. rewrite <- list_fmap_compose. apply list_fmap_ext.
  intros i r _. simpl. apply Hf.
Qed.

Lemma pk_unique_map_items st (f : Item.t → Item.t) :
  (∀ r, Item.id (f r) = Item.id r) → pk_unique st →
  pk_unique (mkStore (todos st) (f <$> items st)).
Proof.
  intros Hf [Ht Hi]. split; [done|]. simpl. by rewrite fmap_key_preserved.
Qed.

Lemma pk_unique_map_todos st (f : Todo.t → Todo.t) :
  (∀ r, Todo.id (f r) = Todo.id r) → pk_unique st →
  pk_unique (mkStore (f <$> todos st) (items st)).
Proof.
  intros Hf [Ht Hi]. split; [|done]. simpl. by rewrite fmap_key_preserved.
Qed.

Lemma pk_unique_filter st (P : Todo.t → Prop) (Q : Item.t → Prop)
    `{!∀ x, Decision (P x), !∀ x, Decision (Q x)} :
  pk_unique st → pk_unique (mkStore (filter P (todos st)) (filter Q (items st))).
Proof. intros [Ht Hi]. split; simpl; by apply NoDup_fmap_filter. Qed.

Lemma item_owner_same_todos st st' it uid :
  todos st' = todos st → item_owner st' it uid ↔ item_owner st it uid.
Proof. unfold item_owner. by intros ->. Qed.

Lemma item_owner_unique st it u u' :
  pk_unique st → item_owner st it u → item_owner st it u' → u = u'.
Proof.
  intros [Hnd _]. unfold item_owner. rewrite !Exists_exists.
  intros (t & Ht & Hid & Hu) (t' & Ht' & Hid' & Hu').
  assert (t = t') as -> by (eapply NoDup_fmap_eq; eauto; congruence).
  congruence.
Qed.

Lemma key_ne_iff_ne {A} (key : A → Z) (l : list A) (x r : A) :
  NoDup (key <$> l) → x ∈ l → r ∈ l → key r ≠ key x ↔ r ≠ x.
Proof.
  intros Hnd Hx Hr. split; [congruence|].
  intros Hne Hk. apply Hne. by eapply NoDup_fmap_eq.
Qed.

Lemma length_filter_key_ne {A} (key : A → Z) (l : list A) (x : A) :
  NoDup (key <$> l) → x ∈ l →
  (length (filter (λ r, key r ≠ key x) l) + 1 = length l)%nat.
Proof.
  induction l as [|a l IH]; csimpl; [by intros _ ?%elem_of_nil|].
  rewrite NoDup_cons. intros [Ha Hnd] [->|Hx]%elem_of_cons.
  - rewrite filter_cons_False by (by intros []).
    rewrite filter_all; [lia|]. intros r Hr Hk. apply Ha. rewrite <- Hk.
    by apply list_elem_of_fmap_2.
  - rewrite filter_cons_True.
    + simpl. rewrite <- (IH Hnd Hx). lia.
    + intros Hk. apply Ha. rewrite Hk. by apply list_elem_of_fmap_2.
Qed.

Lemma run_delete_item_fault st iid uid it fault :
  first (item_filter_owned st iid uid) = Some it →
  run (delete_item iid uid) fault (clean st)
  = after_commit fault st
      (mkStore (todos st) (filter (λ r, Item.id r ≠ Item.id it) (items st)))
      (true, None).
Proof.
  intros H. unfold delete_item. db_unfold. rewrite H. by destruct fault.
Qed.

(** X1. [add_item_to_todo] for a todo id that is no todo of the caller:
    the not-found answer, whatever the item is to hold, and nothing is
    stored. *)
Theorem add_item_requires_owned_todo (st : Store) (tid uid : Z) :
  (¬ ∃ t, owns_todo st uid t ∧ Todo.id t = tid) →
  ∀ content due_date status fault,
    run (add_item_to_todo tid uid content due_date status) fault (clean st)
    = (clean st, Ok (None, Some "Todo not found or you don't have permission")).
Proof.
  intros Hno content due_date status fault.
  apply first_todo_filter_by_None in Hno.
  unfold add_item_to_todo. db_unfold. by rewrite Hno.
Qed.

Lemma add_item_requires_owned_todo_witness :
  run (add_item_to_todo 3 1 "x" None "Pending") None (clean sample)
  = (clean sample, Ok (None, Some "Todo not found or you don't have permission")).
Proof.
  apply add_item_requires_owned_todo.
  apply first_todo_filter_by_None. reflexivity.
Defined.

(** X2. [add_item_to_todo] under a todo of the caller appends one row and
    touches no other: the item has the content, due date and status given,
    hangs under the todo asked for, and gets a key above every key of the
    table, so keys stay unique. *)
Theorem add_item_appends_fresh_row
    (st : Store) (tid uid : Z) (t : Todo.t)
    (content : string) (due_date : option Z) (status : string) :
  pk_unique st → owns_todo st uid t → Todo.id t = tid →
  ∃ it,
    run (add_item_to_todo tid uid content due_date status) None (clean st)
    = (clean (mkStore (todos st) (items st ++ [it])), Ok (Some it, None)) ∧
    Item.content it = content ∧ Item.due_date it = due_date ∧
    Item.status it = status ∧ Item.todo_id it = tid ∧
    Item.id it = next_id (Item.id <$> items st) ∧
    (∀ r, r ∈ items st → Item.id r < Item.id it) ∧
    pk_unique (mkStore (todos st) (items st ++ [it])).
Proof.
  intros Hpk Hown Hid.
  pose proof (first_todo_filter_by_owner st tid uid t Hpk Hown Hid) as Hq.
  eexists. rewrite (run_add_item_to_todo_Some st tid uid t _ _ _ None Hq).
  simpl. split; [reflexivity|]. simpl. repeat split; try done.
  - intros r Hr. apply next_id_fresh. by apply list_elem_of_fmap_2.
  - by apply pk_unique_add_item.
  - by apply pk_unique_add_item.
Qed.

Lemma add_item_appends_fresh_row_witness :
  ∃ it,
    run (add_item_to_todo 2 1 "milk" (Some 20) "Pending") None (clean sample)
    = (clean (mkStore (todos sample) (items sample ++ [it])), Ok (Some it, None)) ∧
    Item.id it = 5 ∧ Item.todo_id it = 2.
Proof.
  destruct (add_item_appends_fresh_row sample 2 1 (sample_todo 2 1)
              "milk" (Some 20) "Pending")
    as (it & Hrun & _ & _ & _ & Htid & Hkey & _).
  - exact pk_unique_sample.
  - apply (bool_decide_unpack _). by vm_compute.
  - reflexivity.
  - exists it. split; [exact Hrun|]. split; [exact Hkey|exact Htid].
Defined.

Lemma get_item_by_id_foreign st (it : Item.t) (uid uid' : Z) fault :
  pk_unique st → owns_item st uid it → uid' ≠ uid →
  run (get_item_by_id (Item.id it) uid') fault (clean st) = (clean st, Ok None).
Proof.
  intros Hpk [Hin Hown] Hne. rewrite run_get_item_by_id.
  do 2 f_equal. apply first_item_filter_owned_None.
  intros (it' & [Hin' Hown'] & Hid).
  assert (it' = it) as -> by (eapply NoDup_fmap_eq; eauto; apply Hpk).
  apply Hne. by eapply item_owner_unique.
Qed.

(** X3. Insert, then look up: the item that [add_item_to_todo] returns is
    what [get_item_by_id] gives for its key to the same user, and it is
    hidden from every other user. *)
Theorem add_item_then_get
    (st : Store) (tid uid : Z) (t : Todo.t)
    (content : string) (due_date : option Z) (status : string) :
  pk_unique st → owns_todo st uid t → Todo.id t = tid →
  ∃ st' it,
    run (add_item_to_todo tid uid content due_date status) None (clean st)
    = (clean st', Ok (Some it, None)) ∧
    (∀ fault, run (get_item_by_id (Item.id it) uid) fault (clean st')
              = (clean st', Ok (Some it))) ∧
    (∀ uid' fault, uid' ≠ uid →
       run (get_item_by_id (Item.id it) uid') fault (clean st')
       = (clean st', Ok None)).
Proof.
  intros Hpk Hown Hid.
  pose proof (first_todo_filter_by_owner st tid uid t Hpk Hown Hid) as Hq.
  eexists _, _. rewrite (run_add_item_to_todo_Some st tid uid t _ _ _ None Hq).
  simpl. split; [reflexivity|].
  set (it := Item.mk _ _ _ _ _). set (st' := mkStore _ _).
  assert (pk_unique st') as Hpk' by (by apply pk_unique_add_item).
  assert (owns_item st' uid it) as Hown'.
  { split; [apply elem_of_app; right; by left|].
    apply Exists_exists. exists t. by destruct Hown. }
  split.
  - intros fault. rewrite run_get_item_by_id.
    by rewrite (first_item_filter_owned_owner st' _ uid it).
  - intros uid' fault Hne. by apply (get_item_by_id_foreign st' it uid).
Qed.

Lemma add_item_then_get_witness :
  ∃ st' it,
    run (add_item_to_todo 1 1 "x" None "Pending") None (clean sample)
    = (clean st', Ok (Some it, None)) ∧
    run (get_item_by_id (Item.id it) 1) None (clean st') = (clean st', Ok (Some it)) ∧
    run (get_item_by_id (Item.id it) 2) None (clean st') = (clean st', Ok None).
Proof.
  destruct (add_item_then_get sample 1 1 (sample_todo 1 1) "x" None "Pending")
    as (st' & it & Hrun & Hget & Hhid).
  - exact pk_unique_sample.
  - apply (bool_decide_unpack _). by vm_compute.
  - reflexivity.
  - exists st', it. split; [exact Hrun|]. split; [apply Hget|].
    apply Hhid. lia.
Defined.

(** X4. [delete_item] by the owner removes that row and no other: the
    table of items is one shorter, todos are untouched, afterwards nobody
    finds the item and a second delete is "not found". *)
Theorem delete_item_removes_one
    (st : Store) (iid uid : Z) (it : Item.t) :
  pk_unique st → owns_item st uid it → Item.id it = iid →
  ∃ st',
    run (delete_item iid uid) None (clean st) = (clean st', Ok (true, None)) ∧
    todos st' = todos st ∧
    (∀ r, r ∈ items st' ↔ r ∈ items st ∧ r ≠ it) ∧
    (length (items st') + 1 = length (items st))%nat ∧
    (∀ u fault, run (get_item_by_id iid u) fault (clean st') = (clean st', Ok None)) ∧
    (∀ fault, run (delete_item iid uid) fault (clean st')
              = (clean st', Ok (false, Some "Item not found or you don't have permission"))).
Proof.
  intros Hpk Hown Hid.
  pose proof (first_item_filter_owned_owner st iid uid it Hpk Hown Hid) as Hq.
  eexists. rewrite (run_delete_item_Some st iid uid it Hq).
  split; [reflexivity|]. simpl. destruct Hown as [Hin Hown].
  assert (∀ u, first (item_filter_owned
            (mkStore (todos st) (filter (λ r, Item.id r ≠ Item.id it) (items st)))
            iid u) = None) as Hgone.
  { intros u. apply first_item_filter_owned_None.
    intros (r & [Hr _] & Hrid). simpl in Hr.
    apply list_elem_of_filter in Hr as [Hne _]. congruence. }
  split; [done|]. split; [|split; [|split]].
  - intros r. rewrite list_elem_of_filter. split.
    + intros [Hne Hr]. split; [done|]. congruence.
    + intros [Hr Hne]. split; [|done].
      by apply (key_ne_iff_ne Item.id (items st)); [apply Hpk|..].
  - apply (length_filter_key_ne Item.id); [apply Hpk|done].
  - intros u fault. by rewrite run_get_item_by_id, Hgone.
  - intros fault. by apply run_delete_item_None.
Qed.

Lemma delete_item_removes_one_witness :
  ∃ st',
    run (delete_item 2 1) None (clean sample) = (clean st', Ok (true, None)) ∧
    length (items st') = 3%nat ∧
    run (get_item_by_id 2 1) None (clean st') = (clean st', Ok None).
Proof.
  destruct (delete_item_removes_one sample 2 1 (sample_item 2 1))
    as (st' & Hrun & _ & _ & Hlen & Hget & _).
  - exact pk_unique_sample.
  - apply (bool_decide_unpack _). by vm_compute.
  - reflexivity.
  - exists st'. split; [exact Hrun|]. split; [|apply Hget].
    simpl in Hlen. lia.
Defined.

(** X5. [update_item_status] by the owner with a status of the vocabulary
    changes the status of that row and nothing else: key, content, due
    date and parent stay, every other row stays, and [get_item_by_id] then
    returns the row with the new status. *)
Theorem update_item_status_changes_only_status
    (st : Store) (iid uid : Z) (it : Item.t) (new_status : string) :
  pk_unique st → owns_item st uid it → Item.id it = iid →
  new_status ∈ VALID_STATUSES →
  ∃ st' it',
    run (update_item_status iid uid new_status) None (clean st)
    = (clean st', Ok (Some it', None)) ∧
    it' = Item.mk (Item.id it) (Item.content it) new_status (Item.due_date it)
            (Item.todo_id it) ∧
    todos st' = todos st ∧
    items st' = (λ r, if decide (r = it) then it' else r) <$> items st ∧
    (∀ fault, run (get_item_by_id iid uid) fault (clean st')
              = (clean st', Ok (Some it'))).
Proof.
  intros Hpk Hown Hid Hv.
  pose proof (first_item_filter_owned_owner st iid uid it Hpk Hown Hid) as Hq.
  eexists _, _.
  rewrite (run_update_item_status_valid st iid uid it new_status None Hq Hv).
  simpl. split; [reflexivity|]. split; [reflexivity|]. split; [reflexivity|].
  assert ((λ r, if decide (Item.id r = Item.id it)
                then Item.with_status new_status r else r) <$> items st
          = (λ r, if decide (r = it)
                  then Item.with_status new_status it else r) <$> items st) as Heq.
  { apply list_fmap_ext. intros i r Hr. simpl.
    apply list_elem_of_lookup_2 in Hr.
    destruct (decide (Item.id r = Item.id it)) as [E|E].
    - assert (r = it) as ->
        by (eapply NoDup_fmap_eq; eauto; [apply Hpk|apply Hown]).
      by rewrite decide_True.
    - rewrite decide_False; [done|]. congruence. }
  split; [exact Heq|]. intros fault. rewrite run_get_item_by_id. do 2 f_equal.
  set (st' := mkStore _ _).
  apply (first_item_filter_owned_owner st' iid uid).
  - by apply pk_unique_map_items; [intros r; case_decide|].
  - destruct Hown as [Hin Hown]. split; [|exact Hown].
    unfold st'. simpl. rewrite Heq. apply list_elem_of_fmap.
    exists it. by rewrite decide_True.
  - done.
Qed.

Lemma update_item_status_changes_only_status_witness :
  ∃ st',
    run (update_item_status 3 1 "Partially Completed") None (clean sample)
    = (clean st', Ok (Some (Item.mk 3 "C" "Partially Completed" None 2), None)) ∧
    items st' = [sample_item 1 1; sample_item 2 1;
                 Item.mk 3 "C" "Partially Completed" None 2; sample_item 4 3].
Proof.
  destruct (update_item_status_changes_only_status sample 3 1 (sample_item 3 2)
              "Partially Completed")
    as (st' & it' & Hrun & -> & _ & Hitems & _).
  - exact pk_unique_sample.
  - apply (bool_decide_unpack _). by vm_compute.
  - reflexivity.
  - apply (bool_decide_unpack _). by vm_compute.
  - exists st'. split; [exact Hrun|]. rewrite Hitems. reflexivity.
Defined.

(** X6. [bulk_update_items] with an action that is neither "delete" nor a
    status of the vocabulary changes nothing.  The ownership filter comes
    first: with an owned item among the ids the answer is "Invalid
    action" with the list of allowed values, with none it is the
    not-found one. *)
Theorem bulk_update_items_rejects_unknown_action
    (st : Store) (uid : Z) (ids : list Z) (action : string)
    (fault : option string) :
  action ≠ "delete" → action ∉ VALID_STATUSES →
  ((∃ it, it ∈ items st ∧ item_selected st uid ids it) →
   run (bulk_update_items uid ids action) fault (clean st)
   = (clean st,
      Ok (false,
          Some "Invalid action. Must be one of ['Pending', 'Partially Completed', 'Completed'] or 'delete'")))
  ∧
  ((¬ ∃ it, it ∈ items st ∧ item_selected st uid ids it) →
   run (bulk_update_items uid ids action) fault (clean st)
   = (clean st, Ok (false, Some "Item not found or you don't have permission"))).
Proof.
  intros Hdel Hv. split.
  - intros Hsel. rewrite run_bulk_update_items_invalid; [done| |done..].
    rewrite item_filter_owned_in_nil. by intros [].
  - intros Hno. apply run_bulk_update_items_none.
    by apply item_filter_owned_in_nil.
Qed.

Lemma bulk_update_items_rejects_unknown_action_witness :
  run (bulk_update_items 1 [1; 4] "Done") None (clean sample)
  = (clean sample,
     Ok (false,
         Some "Invalid action. Must be one of ['Pending', 'Partially Completed', 'Completed'] or 'delete'"))
  ∧
  run (bulk_update_items 1 [4] "Done") None (clean sample)
  = (clean sample, Ok (false, Some "Item not found or you don't have permission")).
Proof.
  assert ("Done" ≠ "delete") as Hd by discriminate.
  assert ("Done" ∉ VALID_STATUSES) as Hv
    by (apply (bool_decide_unpack _); by vm_compute).
  split.
  - apply (bulk_update_items_rejects_unknown_action sample 1 [1; 4] "Done" None Hd Hv).
    exists (sample_item 1 1). apply (bool_decide_unpack _). by vm_compute.
  - apply (bulk_update_items_rejects_unknown_action sample 1 [4] "Done" None Hd Hv).
    apply item_filter_owned_in_nil. reflexivity.
Defined.

(** X7. After a bulk delete of items has gone through, none of the
    requested ids is an item the caller can read, and the same bulk
    request again, with any action, is "not found". *)
Theorem bulk_delete_items_then_gone (st : Store) (uid : Z) (ids : list Z) :
  pk_unique st →
  (∃ it, it ∈ items st ∧ item_selected st uid ids it) →
  ∃ st',
    run (bulk_update_items uid ids "delete") None (clean st)
    = (clean st', Ok (true, None)) ∧
    (∀ iid fault, iid ∈ ids →
       run (get_item_by_id iid uid) fault (clean st') = (clean st', Ok None)) ∧
    (∀ action fault,
       run (bulk_update_items uid ids action) fault (clean st')
       = (clean st', Ok (false, Some "Item not found or you don't have permission"))).
Proof.
  intros Hpk Hsel.
  assert (item_filter_owned_in st ids uid ≠ []) as Hne.
  { rewrite item_filter_owned_in_nil. by intros []. }
  eexists. rewrite run_bulk_update_items_delete by done. simpl.
  split; [reflexivity|]. set (st' := mkStore _ _).
  assert (∀ r, r ∈ items st' → ¬ item_selected st' uid ids r) as Hleft.
  { intros r Hr [Hid Hown]. apply list_elem_of_filter in Hr as [Hns _].
    apply Hns. split; [done|]. by apply (item_owner_same_todos st st'). }
  split.
  - intros iid fault Hin. rewrite run_get_item_by_id. do 2 f_equal.
    apply first_item_filter_owned_None. intros (r & [Hr Hown] & Hid).
    apply (Hleft r Hr). split; [by rewrite Hid|done].
  - intros action fault. apply run_bulk_update_items_none.
    apply item_filter_owned_in_nil. intros (r & Hr & Hs). by apply (Hleft r).
Qed.

Lemma bulk_delete_items_then_gone_witness :
  ∃ st',
    run (bulk_update_items 1 [1; 3; 4] "delete") None (clean sample)
    = (clean st', Ok (true, None)) ∧
    run (get_item_by_id 3 1) None (clean st') = (clean st', Ok None) ∧
    items st' = [sample_item 2 1; sample_item 4 3].
Proof.
  destruct (bulk_delete_items_then_gone sample 1 [1; 3; 4] pk_unique_sample)
    as (st' & Hrun & Hget & _).
  - exists (sample_item 1 1). apply (bool_decide_unpack _). by vm_compute.
  - exists st'. split; [exact Hrun|]. split.
    + apply Hget. apply (bool_decide_unpack _). by vm_compute.
    + by injection Hrun as <-.
Defined.

Lemma elem_of_paginate {A} (q : list A) (page per_page : Z) (x : A) :
  x ∈ pg_items (paginate q page per_page) → x ∈ q.
Proof.
  unfold paginate. simpl. intros Hx.
  apply subseteq_take in Hx. by apply subseteq_drop in Hx.
Qed.

Lemma paginate_beyond_last {A} (q : list A) (page per_page : Z) :
  1 ≤ per_page → pg_pages (paginate q page per_page) < page →
  pg_items (paginate q page per_page) = [].
Proof.
  intros Hpp. unfold paginate. simpl. rewrite (decide_False (P := per_page < 1)) by lia.
  destruct (decide (Z.of_nat (length q) = 0)) as [E|E].
  - intros _. destruct q; [|done]. by rewrite drop_nil, take_nil.
  - intros Hlast. rewrite (decide_False (P := page < 1)).
    + rewrite drop_ge; [apply take_nil|].
      pose proof (Z.div_mod (Z.of_nat (length q) + per_page - 1) per_page) as Hdm.
      pose proof (Z.mod_pos_bound (Z.of_nat (length q) + per_page - 1) per_page).
      nia.
    + pose proof (Z.div_pos (Z.of_nat (length q) + per_page - 1) per_page). lia.
Qed.

(** X8. [get_items_for_todo]: for a todo that is not the caller's, the
    not-found answer.  For the owner, a page holds only stored items of
    that todo, the total is the number of items of the todo whatever the
    page, and a page after the last one is empty rather than an error. *)
Theorem get_items_for_todo_lists_that_todo
    (st : Store) (tid uid page per_page : Z) :
  ((¬ ∃ t, owns_todo st uid t ∧ Todo.id t = tid) →
   ∀ fault,
     run (get_items_for_todo tid uid page per_page) fault (clean st)
     = (clean st, Ok (None, Some "Todo not found or you don't have permission")))
  ∧
  ((∃ t, owns_todo st uid t ∧ Todo.id t = tid) →
   ∃ pg,
     (∀ fault,
        run (get_items_for_todo tid uid page per_page) fault (clean st)
        = (clean st, Ok (Some pg, None))) ∧
     (∀ it, it ∈ pg_items pg → it ∈ items st ∧ Item.todo_id it = tid) ∧
     pg_total pg = Z.of_nat (length (item_filter_by_todo st tid)) ∧
     (1 ≤ per_page → pg_pages pg < page → pg_items pg = [])).
Proof.
  split.
  - intros Hno fault. apply run_get_items_for_todo_None.
    by apply first_todo_filter_by_None.
  - intros Hown.
    destruct (first (todo_filter_by st tid uid)) as [t|] eqn:E.
    + eexists. split; [|split; [|split]].
      * intros fault. by apply (run_get_items_for_todo_Some st tid uid _ _ t).
      * intros it Hit. apply elem_of_paginate in Hit.
        apply list_elem_of_filter in Hit. tauto.
      * reflexivity.
      * intros Hpp Hlast. apply paginate_beyond_last; [lia|done].
    + apply first_todo_filter_by_None in E. by destruct E.
Qed.

Lemma get_items_for_todo_lists_that_todo_witness :
  run (get_items_for_todo 3 1 1 10) None (clean sample)
  = (clean sample, Ok (None, Some "Todo not found or you don't have permission"))
  ∧
  ∃ pg,
    run (get_items_for_todo 1 1 5 10) None (clean sample)
    = (clean sample, Ok (Some pg, None)) ∧
    pg_total pg = 2 ∧ pg_items pg = [].
Proof.
  destruct (get_items_for_todo_lists_that_todo sample 3 1 1 10) as [Hno _].
  destruct (get_items_for_todo_lists_that_todo sample 1 1 5 10) as [_ Hyes].
  split.
  - apply Hno. apply first_todo_filter_by_None. reflexivity.
  - destruct Hyes as (pg & Hrun & _ & Htotal & Hempty).
    + exists (sample_todo 1 1). apply (bool_decide_unpack _). by vm_compute.
    + exists pg. split; [apply Hrun|]. split; [exact Htotal|].
      apply Hempty; [lia|].
      pose proof (Hrun None) as Hr. injection Hr as <-. by vm_compute.
Defined.

(** * Further properties of todo_logic.py *)

(** X9. [get_todos] returns stored todos of the caller only, whatever the
    page and the page size, and changes nothing. *)
Theorem get_todos_only_own (st : Store) (uid page per_page : Z)
    (fault : option string) :
  ∃ l,
    run (get_todos uid page per_page) fault (clean st) = (clean st, Ok l) ∧
    (∀ t, t ∈ l → t ∈ todos st ∧ Todo.user_id t = uid) ∧
    (1 ≤ per_page → (length l ≤ Z.to_nat per_page)%nat).
Proof.
  eexists. split; [reflexivity|]. split.
  - intros t Ht. apply elem_of_paginate in Ht.
    apply list_elem_of_filter in Ht. tauto.
  - intros Hpp. by apply paginate_length.
Qed.

Lemma get_todos_only_own_witness :
  ∃ l,
    run (get_todos 1 1 1) None (clean sample) = (clean sample, Ok l) ∧
    (length l ≤ 1)%nat.
Proof.
  destruct (get_todos_only_own sample 1 1 1 None) as (l & Hrun & _ & Hlen).
  exists l. split; [exact Hrun|]. apply Hlen. lia.
Defined.

Lemma py_text_as_text v : fits_text true v = true → py_text (as_text v) = v.
Proof. by destruct v. Qed.

Lemma todo_body_description (d : TodoBody) :
  from_option (fits_text true) true (d !! "description") = true.
Proof.
  pose proof (body_fits d) as H. unfold fits_todo_body in H.
  apply andb_true_iff in H as [H _]. by apply andb_true_iff in H as [_ H].
Qed.

Lemma todo_body_status (d : TodoBody) :
  from_option (fits_text true) true (d !! "status") = true.
Proof.
  pose proof (body_fits d) as H. unfold fits_todo_body in H.
  by apply andb_true_iff in H as [_ H].
Qed.

Lemma run_create_todo st title uid description status fault :
  run (create_todo title uid description status) fault (clean st)
  = let todo := Todo.mk (next_id (Todo.id <$> todos st)) (py_text title)
                  (py_text description) (PyStr (default "In Progress" status))
                  (PyBool false) uid in
    match title with
    | None => (mkSession st (mkStore (todos st ++ [todo]) (items st)),
               Raise todo_title_not_null)
    | Some _ =>
        after_commit fault st (mkStore (todos st ++ [todo]) (items st)) todo
    end.
Proof.
  unfold create_todo, commit_new_todo, throw. db_unfold.
  destruct title as [title|]; simpl; [|done]. by destruct fault.
Qed.

Lemma get_todo_by_id_foreign st (t : Todo.t) (uid' : Z) fault :
  pk_unique st → t ∈ todos st → uid' ≠ Todo.user_id t →
  run (get_todo_by_id (Todo.id t) uid') fault (clean st) = (clean st, Ok None).
Proof.
  intros Hpk Hin Hne. rewrite run_get_todo_by_id. do 2 f_equal.
  apply first_todo_filter_by_None. intros (t' & [Hin' Hu] & Hid).
  assert (t' = t) as -> by (eapply NoDup_fmap_eq; eauto; apply Hpk).
  congruence.
Qed.

(** X10. [create_todo] with a title appends one todo with a fresh key,
    that title and description, [completed] false and the caller as
    owner; its status is the one given, or "In Progress", the default of
    the column, when the status is [None]; keys stay unique;
    [get_todo_by_id] then returns the todo to its owner and to nobody
    else.  Without a title ([None]) the commit raises, the title being not
    nullable, and nothing is stored. *)
Theorem create_todo_then_get
    (st : Store) (title : string) (uid : Z) (description status : option string) :
  pk_unique st →
  (∃ t,
     run (create_todo (Some title) uid description status) None (clean st)
     = (clean (mkStore (todos st ++ [t]) (items st)), Ok t) ∧
     t = Todo.mk (next_id (Todo.id <$> todos st)) (PyStr title)
           (py_text description) (PyStr (default "In Progress" status))
           (PyBool false) uid ∧
     (∀ r, r ∈ todos st → Todo.id r < Todo.id t) ∧
     pk_unique (mkStore (todos st ++ [t]) (items st)) ∧
     (∀ fault,
        run (get_todo_by_id (Todo.id t) uid) fault
          (clean (mkStore (todos st ++ [t]) (items st)))
        = (clean (mkStore (todos st ++ [t]) (items st)), Ok (Some t))) ∧
     (∀ uid' fault, uid' ≠ uid →
        run (get_todo_by_id (Todo.id t) uid') fault
          (clean (mkStore (todos st ++ [t]) (items st)))
        = (clean (mkStore (todos st ++ [t]) (items st)), Ok None)))
  ∧
  (∀ fault, ∃ e s',
     run (create_todo None uid description status) fault (clean st)
     = (s', Raise e)
     ∧ committed s' = st).
Proof.
  intros Hpk. split.
  - eexists. rewrite run_create_todo. simpl.
    split; [reflexivity|]. split; [reflexivity|].
    set (t := Todo.mk _ _ _ _ _ _). set (st' := mkStore _ _).
    assert (pk_unique st') as Hpk' by (by apply pk_unique_add_todo).
    assert (t ∈ todos st') as Hin by (apply elem_of_app; right; by left).
    split; [|split; [done|split]].
    + intros r Hr. apply next_id_fresh. by apply list_elem_of_fmap_2.
    + intros fault. rewrite run_get_todo_by_id.
      by rewrite (first_todo_filter_by_owner st' _ uid t).
    + intros uid' fault Hne. by apply (get_todo_by_id_foreign st' t).
  - intros fault. eexists _, _. rewrite run_create_todo. simpl.
    split; reflexivity.
Qed.

Lemma create_todo_then_get_witness :
  ∃ t,
    run (create_todo (Some "New") 2 None None) None (clean sample)
    = (clean (mkStore (todos sample ++ [t]) (items sample)), Ok t) ∧
    Todo.id t = 4 ∧ Todo.status t = PyStr "In Progress" ∧
    Todo.completed t = PyBool false.
Proof.
  destruct (create_todo_then_get sample "New" 2 None None pk_unique_sample)
    as [(t & Hrun & -> & _) _].
  eexists. split; [exact Hrun|]. repeat split.
Defined.

Lemma merged_idempotent data (r : Todo.t) :
  merged data (merged data r) = merged data r.
Proof.
  unfold merged. destruct r.
  by destruct (data !! "title"), (data !! "description"),
    (data !! "status"), (data !! "completed").
Qed.

Lemma merged_id data (r : Todo.t) : Todo.id (merged data r) = Todo.id r.
Proof. unfold merged. by rewrite !opt_set_id. Qed.

(** X11. [update_todo] is idempotent: the same payload a second time
    returns the same row and leaves the store as the first call left it.
    A payload with none of the four keys leaves the store as it was. *)
Theorem update_todo_idempotent
    (st : Store) (tid uid : Z) (t : Todo.t) (data : TodoPayload) :
  pk_unique st → owns_todo st uid t → Todo.id t = tid →
  (∃ st' t',
     run (update_todo tid uid data) None (clean st)
     = (clean st', Ok (Some t', None)) ∧
     run (update_todo tid uid data) None (clean st')
     = (clean st', Ok (Some t', None)))
  ∧
  (data !! "title" = None → data !! "description" = None →
   data !! "status" = None → data !! "completed" = None →
   run (update_todo tid uid data) None (clean st)
   = (clean st, Ok (Some t, None))).
Proof.
  intros Hpk Hown Hid.
  pose proof (first_todo_filter_by_owner st tid uid t Hpk Hown Hid) as Hq.
  split.
  - eexists _, _. rewrite (run_update_todo_Some st tid uid t data Hq).
    split; [reflexivity|]. set (st' := mkStore _ _).
    assert (first (todo_filter_by st' tid uid) = Some (merged data t)) as Hq'.
    { apply first_todo_filter_by_owner.
      - apply pk_unique_map_todos; [|done]. intros r. case_decide; [|done].
        apply merged_id.
      - split.
        + apply list_elem_of_fmap. exists t. rewrite decide_True by done.
          split; [done|apply Hown].
        + destruct Hown as [_ <-]. unfold merged.
          by destruct (data !! "title"), (data !! "description"),
            (data !! "status"), (data !! "completed").
      - by rewrite merged_id. }
    rewrite (run_update_todo_Some st' tid uid _ data Hq').
    rewrite merged_idempotent. unfold st'. simpl. rewrite merged_id.
    rewrite update_rows_compose by apply merged_id.
    do 3 f_equal. apply list_fmap_ext. intros i r _. simpl.
    case_decide; [apply merged_idempotent|done].
  - intros H1 H2 H3 H4. rewrite (run_update_todo_Some st tid uid t data Hq).
    unfold merged. rewrite H1, H2, H3, H4. simpl.
    do 3 f_equal. destruct st as [ts its]. simpl. f_equal.
    rewrite <- (list_fmap_id ts) at 2. apply list_fmap_ext.
    intros i r _. simpl. by case_decide.
Qed.

Lemma update_todo_idempotent_witness :
  ∃ st' t',
    run (update_todo 1 1 payload_status_completed) None (clean sample)
    = (clean st', Ok (Some t', None)) ∧
    run (update_todo 1 1 payload_status_completed) None (clean st')
    = (clean st', Ok (Some t', None)).
Proof.
  destruct (update_todo_idempotent sample 1 1 (sample_todo 1 1)
              payload_status_completed) as [Hidem _].
  - exact pk_unique_sample.
  - apply (bool_decide_unpack _). by vm_compute.
  - reflexivity.
  - exact Hidem.
Defined.

Lemma run_delete_todo_fault st tid uid t fault :
  pk_unique st →
  first (todo_filter_by st tid uid) = Some t →
  run (delete_todo tid uid) fault (clean st)
  = after_commit fault st
      (mkStore (filter (λ r, Todo.id r ≠ Todo.id t) (todos st))
         (filter (λ r, Item.todo_id r ≠ Todo.id t) (items st)))
      (true, None).
Proof.
  intros [_ Hnd] H. unfold delete_todo, run.
  unfold mbind at 1, db_bind at 1, query at 1. simpl. rewrite H.
  unfold mbind at 1, db_bind at 1. rewrite run_session_delete_todo by done.
  db_unfold. by destruct fault.
Qed.

Lemma run_update_todo_fault st tid uid t data fault :
  first (todo_filter_by st tid uid) = Some t →
  run (update_todo tid uid data) fault (clean st)
  = after_commit fault st
      (mkStore
         ((λ r, if decide (Todo.id r = Todo.id t) then merged data r else r)
            <$> todos st)
         (items st))
      (Some (merged data t), None).
Proof.
  intros H. unfold update_todo, run.
  unfold mbind at 1, db_bind at 1, query at 1. simpl. rewrite H.
  unfold mbind at 1, db_bind at 1. rewrite run_opt_assign. simpl.
  unfold mbind at 1, db_bind at 1. rewrite run_opt_assign. simpl.
  unfold mbind at 1, db_bind at 1. rewrite run_opt_assign. simpl.
  unfold mbind at 1, db_bind at 1. rewrite run_opt_assign. simpl.
  db_unfold. unfold merged.
  rewrite !opt_set_id by done.
  rewrite !update_rows_compose by (intros r; by apply opt_set_id).
  by destruct fault.
Qed.

(** X12. After [delete_todo] by the owner the todo is gone for everyone,
    a second delete is "Todo not found", and no item that hung under the
    todo can be read by anyone, the former owner included. *)
Theorem delete_todo_then_gone (st : Store) (tid uid : Z) (t : Todo.t) :
  pk_unique st → owns_todo st uid t → Todo.id t = tid →
  ∃ st',
    run (delete_todo tid uid) None (clean st) = (clean st', Ok (true, None)) ∧
    (∀ u fault, run (get_todo_by_id tid u) fault (clean st') = (clean st', Ok None)) ∧
    (∀ fault, run (delete_todo tid uid) fault (clean st')
              = (clean st', Ok (false, Some "Todo not found"))) ∧
    (∀ it u fault, it ∈ items st → Item.todo_id it = tid →
       run (get_item_by_id (Item.id it) u) fault (clean st') = (clean st', Ok None)).
Proof.
  intros Hpk Hown Hid.
  pose proof (first_todo_filter_by_owner st tid uid t Hpk Hown Hid) as Hq.
  eexists. rewrite (run_delete_todo_Some st tid uid t Hpk Hq).
  split; [reflexivity|]. rewrite Hid. set (st' := mkStore _ _).
  assert (∀ u, first (todo_filter_by st' tid u) = None) as Hgone.
  { intros u. apply first_todo_filter_by_None.
    intros (r & [Hr _] & Hrid). apply list_elem_of_filter in Hr as [Hne _].
    done. }
  split; [|split].
  - intros u fault. by rewrite run_get_todo_by_id, Hgone.
  - intros fault. by apply run_delete_todo_None.
  - intros it u fault Hin Htid. rewrite run_get_item_by_id. do 2 f_equal.
    apply first_item_filter_owned_None. intros (r & [Hr _] & Hrid).
    apply list_elem_of_filter in Hr as [Hne Hr].
    assert (r = it) as -> by (eapply NoDup_fmap_eq; eauto; apply Hpk).
    done.
Qed.

Lemma delete_todo_then_gone_witness :
  ∃ st',
    run (delete_todo 1 1) None (clean sample) = (clean st', Ok (true, None)) ∧
    run (get_item_by_id 2 1) None (clean st') = (clean st', Ok None) ∧
    run (delete_todo 1 1) None (clean st')
    = (clean st', Ok (false, Some "Todo not found")).
Proof.
  destruct (delete_todo_then_gone sample 1 1 (sample_todo 1 1))
    as (st' & Hrun & _ & Hagain & Hitems).
  - exact pk_unique_sample.
  - apply (bool_decide_unpack _). by vm_compute.
  - reflexivity.
  - exists st'. split; [exact Hrun|]. split; [|apply Hagain].
    apply (Hitems (sample_item 2 1)); [|reflexivity].
    apply (bool_decide_unpack _). by vm_compute.
Defined.

(** X13. [bulk_update_todos] with an action other than "delete" and
    "update_status" changes nothing, whatever the status argument.  The
    ownership filter comes first: with a todo of the caller among the ids
    the answer is "Invalid action", with none it is "No matching todos
    found". *)
Theorem bulk_update_todos_rejects_unknown_action
    (st : Store) (uid : Z) (ids : list Z) (action : string) (status : pyval)
    (fault : option string) :
  action ≠ "delete" → action ≠ "update_status" →
  ((∃ t, t ∈ todos st ∧ todo_selected uid ids t) →
   run (bulk_update_todos uid ids action status) fault (clean st)
   = (clean st, Ok (false, Some "Invalid action")))
  ∧
  ((¬ ∃ t, t ∈ todos st ∧ todo_selected uid ids t) →
   run (bulk_update_todos uid ids action status) fault (clean st)
   = (clean st, Ok (false, Some "No matching todos found"))).
Proof.
  intros Hdel Hupd. split.
  - intros Hsel. apply run_bulk_update_todos_invalid; [|done..].
    rewrite todo_filter_in_nil. by intros [].
  - intros Hno. apply run_bulk_update_todos_none. by apply todo_filter_in_nil.
Qed.

Lemma bulk_update_todos_rejects_unknown_action_witness :
  run (bulk_update_todos 1 [1; 3] "Completed" (PyStr "Completed")) None
    (clean sample)
  = (clean sample, Ok (false, Some "Invalid action")).
Proof.
  destruct (bulk_update_todos_rejects_unknown_action sample 1 [1; 3]
              "Completed" (PyStr "Completed") None) as [Hsel _].
  - discriminate.
  - discriminate.
  - apply Hsel. exists (sample_todo 1 1).
    apply (bool_decide_unpack _). by vm_compute.
Defined.

(** * Invariants of the store *)

Lemma store_step_pk_unique st st' :
  pk_unique st → store_step st st' → pk_unique st'.
Proof.
  intros Hpk [| it Hid _ | t Hid | f Hf _ | f Hf | ts its Hts Hits _].
  - done.
  - by apply pk_unique_add_item.
  - by apply pk_unique_add_todo.
  - by apply pk_unique_map_items.
  - by apply pk_unique_map_todos.
  - destruct Hpk as [Ht Hi]. split; simpl.
    + apply (sublist_NoDup _ (Todo.id <$> todos st)); [done|].
      by apply fmap_sublist.
    + apply (sublist_NoDup _ (Item.id <$> items st)); [done|].
      by apply fmap_sublist.
Qed.

Lemma store_step_attached st st' :
  items_attached st → store_step st st' → items_attached st'.
Proof.
  unfold items_attached. rewrite !Forall_forall.
  intros Hat [| it _ Hin | t _ | f _ Hf | f Hf | ts its Hts Hits Hkeep]; simpl.
  - done.
  - intros x [Hx|Hx%list_elem_of_singleton]%elem_of_app; [auto|by subst].
  - intros x Hx. rewrite fmap_app. apply elem_of_app. left. auto.
  - intros x (r & -> & Hr)%list_elem_of_fmap. rewrite Hf. auto.
  - intros x Hx. rewrite fmap_key_preserved by done. auto.
  - intros x Hx.
    assert (x ∈ items st) as Hx' by (by eapply elem_of_sublist).
    apply Hat in Hx'. apply list_elem_of_fmap in Hx' as (t & Hid & Ht).
    apply list_elem_of_fmap. exists t. split; [done|].
    by apply (Hkeep x t).
Qed.

Lemma after_commit_step {A} fault st st' (a : A) s' r :
  store_step st st' → after_commit fault st st' a = (s', r) →
  store_step st (committed s').
Proof.
  intros Hstep. destruct fault; intros [= <- <-]; simpl; [constructor|done].
Qed.

Lemma run_add_item_to_todo_None st tid uid content due_date status fault :
  first (todo_filter_by st tid uid) = None →
  run (add_item_to_todo tid uid content due_date status) fault (clean st)
  = (clean st, Ok (None, Some todo_not_found_or_permission)).
Proof. intros H. unfold add_item_to_todo. db_unfold. by rewrite H. Qed.

Lemma add_item_to_todo_step st tid uid content due_date status fault s' r :
  run (add_item_to_todo tid uid content due_date status) fault (clean st) = (s', r) →
  store_step st (committed s').
Proof.
  destruct (first (todo_filter_by st tid uid)) as [t|] eqn:E.
  - rewrite (run_add_item_to_todo_Some st tid uid t _ _ _ fault E). simpl.
    apply after_commit_step. apply step_add_item; [done|]. simpl.
    apply first_filter_Some in E as [Ht _]. by apply list_elem_of_fmap_2.
  - rewrite run_add_item_to_todo_None by done.
    intros [= <- <-]. constructor.
Qed.

Lemma update_item_status_step st iid uid v fault s' r :
  run (update_item_status iid uid v) fault (clean st) = (s', r) →
  store_step st (committed s').
Proof.
  destruct (first (item_filter_owned st iid uid)) as [it|] eqn:E.
  - destruct (decide (v ∈ VALID_STATUSES)) as [Hv|Hv].
    + rewrite (run_update_item_status_valid st iid uid it v fault E Hv).
      apply after_commit_step. apply step_set_items; intros x; by case_decide.
    + rewrite (run_update_item_status_invalid st iid uid it v fault E Hv).
      intros [= <- <-]. constructor.
  - rewrite (run_update_item_status_None st iid uid v fault E).
    intros [= <- <-]. constructor.
Qed.

Lemma step_delete_items st (Q : Item.t → Prop) `{!∀ x, Decision (Q x)} :
  store_step st (mkStore (todos st) (filter Q (items st))).
Proof. apply step_delete; [done|apply sublist_filter|auto]. Qed.

Lemma delete_item_step st iid uid fault s' r :
  run (delete_item iid uid) fault (clean st) = (s', r) →
  store_step st (committed s').
Proof.
  destruct (first (item_filter_owned st iid uid)) as [it|] eqn:E.
  - rewrite (run_delete_item_fault st iid uid it fault E).
    apply after_commit_step, step_delete_items.
  - rewrite (run_delete_item_None st iid uid fault E).
    intros [= <- <-]. constructor.
Qed.

Lemma bulk_update_items_step st uid ids action fault s' r :
  pk_unique st →
  run (bulk_update_items uid ids action) fault (clean st) = (s', r) →
  store_step st (committed s').
Proof.
  intros Hpk.
  destruct (decide (item_filter_owned_in st ids uid = [])) as [Hnil|Hsel].
  { rewrite run_bulk_update_items_none by done. intros [= <- <-]. constructor. }
  destruct (decide (action = "delete")) as [->|Hdel].
  { rewrite run_bulk_update_items_delete by done.
    apply after_commit_step, step_delete_items. }
  destruct (decide (action ∈ VALID_STATUSES)) as [Hv|Hv].
  { rewrite run_bulk_update_items_status by done.
    apply after_commit_step. apply step_set_items; intros x; by case_decide. }
  rewrite run_bulk_update_items_invalid by done. intros [= <- <-]. constructor.
Qed.

Lemma create_todo_step st title uid description status fault s' r :
  run (create_todo title uid description status) fault (clean st) = (s', r) →
  store_step st (committed s').
Proof.
  rewrite run_create_todo. simpl. destruct title as [title|].
  - apply after_commit_step. by apply step_add_todo.
  - intros [= <- <-]. constructor.
Qed.

Lemma update_todo_step st tid uid data fault s' r :
  run (update_todo tid uid data) fault (clean st) = (s', r) →
  store_step st (committed s').
Proof.
  destruct (first (todo_filter_by st tid uid)) as [t|] eqn:E.
  - rewrite (run_update_todo_fault st tid uid t data fault E).
    apply after_commit_step. apply step_set_todos. intros x.
    case_decide; [apply merged_id|done].
  - rewrite (run_update_todo_None st tid uid data fault E).
    intros [= <- <-]. constructor.
Qed.

Lemma delete_todo_step st tid uid fault s' r :
  pk_unique st →
  run (delete_todo tid uid) fault (clean st) = (s', r) →
  store_step st (committed s').
Proof.
  intros Hpk. destruct (first (todo_filter_by st tid uid)) as [t|] eqn:E.
  - rewrite (run_delete_todo_fault st tid uid t fault Hpk E).
    apply after_commit_step.
    apply step_delete; [apply sublist_filter..|].
    intros it t' Hit Ht' Hid. apply list_elem_of_filter in Hit as [Hne _].
    apply list_elem_of_filter. split; [congruence|done].
  - rewrite (run_delete_todo_None st tid uid fault E).
    intros [= <- <-]. constructor.
Qed.

Lemma after_guarded_commit_step fault st st' s' r :
  store_step st st' → after_guarded_commit fault st st' = (s', r) →
  store_step st (committed s').
Proof.
  intros Hstep. destruct fault; intros [= <- <-]; simpl; [constructor|done].
Qed.

Lemma bulk_update_todos_step st uid ids action status fault s' r :
  pk_unique st →
  run (bulk_update_todos uid ids action status) fault (clean st) = (s', r) →
  store_step st (committed s').
Proof.
  intros Hpk.
  destruct (decide (todo_filter_in st ids uid = [])) as [Hnil|Hsel].
  { rewrite run_bulk_update_todos_none by done. intros [= <- <-]. constructor. }
  destruct (decide (action = "delete")) as [->|Hdel].
  { rewrite run_bulk_update_todos_delete by done.
    apply after_guarded_commit_step.
    apply step_delete; [apply sublist_filter..|].
    intros it t Hit Ht Hid. apply list_elem_of_filter in Hit as [Hns _].
    apply list_elem_of_filter. split; [|done]. intros [Hin Hu]. apply Hns.
    split; [congruence|]. apply Exists_exists. by exists t. }
  destruct (decide (action = "update_status")) as [->|Hupd].
  { destruct (truthy status) eqn:Hs.
    - rewrite run_bulk_update_todos_status by done.
      apply after_guarded_commit_step. apply step_set_todos.
      intros x. by case_decide.
    - rewrite run_bulk_update_todos_missing_status by done.
      intros [= <- <-]. constructor. }
  rewrite run_bulk_update_todos_invalid by done. intros [= <- <-]. constructor.
Qed.

(** X14. Primary keys stay unique: whatever a function of item_logic.py
    or todo_logic.py is called with, whether it succeeds, refuses or its
    commit fails, no two todos and no two items of the committed store
    share an id afterwards. *)
Theorem operations_keep_keys_unique
    (st : Store) (fault : option string) (s' : Session) :
  pk_unique st →
  (∀ tid uid content due_date status r,
     run (add_item_to_todo tid uid content due_date status) fault (clean st)
     = (s', r) → pk_unique (committed s')) ∧
  (∀ iid uid new_status r,
     run (update_item_status iid uid new_status) fault (clean st) = (s', r) →
     pk_unique (committed s')) ∧
  (∀ iid uid r,
     run (delete_item iid uid) fault (clean st) = (s', r) →
     pk_unique (committed s')) ∧
  (∀ uid ids action r,
     run (bulk_update_items uid ids action) fault (clean st) = (s', r) →
     pk_unique (committed s')) ∧
  (∀ title uid description status r,
     run (create_todo title uid description status) fault (clean st) = (s', r) →
     pk_unique (committed s')) ∧
  (∀ tid uid data r,
     run (update_todo tid uid data) fault (clean st) = (s', r) →
     pk_unique (committed s')) ∧
  (∀ tid uid r,
     run (delete_todo tid uid) fault (clean st) = (s', r) →
     pk_unique (committed s')) ∧
  (∀ uid ids action status r,
     run (bulk_update_todos uid ids action status) fault (clean st) = (s', r) →
     pk_unique (committed s')).
Proof.
  intros Hpk. repeat apply conj; intros; apply (store_step_pk_unique st); try done.
  - by eapply add_item_to_todo_step.
  - by eapply update_item_status_step.
  - by eapply delete_item_step.
  - by eapply bulk_update_items_step.
  - by eapply create_todo_step.
  - by eapply update_todo_step.
  - by eapply delete_todo_step.
  - by eapply bulk_update_todos_step.
Qed.

Lemma operations_keep_keys_unique_witness :
  pk_unique
    (committed (run (bulk_update_todos 1 [1; 2] "delete" PyNone) None
                  (clean sample)).1).
Proof.
  destruct (operations_keep_keys_unique sample None
              (run (bulk_update_todos 1 [1; 2] "delete" PyNone) None
                 (clean sample)).1 pk_unique_sample)
    as (_ & _ & _ & _ & _ & _ & _ & Hbulk).
  eapply (Hbulk 1 [1; 2] "delete" PyNone). apply surjective_pairing.
Defined.

(** X15. No orphans: if every item hangs under a todo of the table, the
    same holds of the committed store after any call of a function of
    item_logic.py or todo_logic.py, whatever its arguments and outcome;
    deleting todos takes their items along, and an item is only added
    under a todo that is there. *)
Theorem operations_keep_items_attached
    (st : Store) (fault : option string) (s' : Session) :
  pk_unique st → items_attached st →
  (∀ tid uid content due_date status r,
     run (add_item_to_todo tid uid content due_date status) fault (clean st)
     = (s', r) → items_attached (committed s')) ∧
  (∀ iid uid new_status r,
     run (update_item_status iid uid new_status) fault (clean st) = (s', r) →
     items_attached (committed s')) ∧
  (∀ iid uid r,
     run (delete_item iid uid) fault (clean st) = (s', r) →
     items_attached (committed s')) ∧
  (∀ uid ids action r,
     run (bulk_update_items uid ids action) fault (clean st) = (s', r) →
     items_attached (committed s')) ∧
  (∀ title uid description status r,
     run (create_todo title uid description status) fault (clean st) = (s', r) →
     items_attached (committed s')) ∧
  (∀ tid uid data r,
     run (update_todo tid uid data) fault (clean st) = (s', r) →
     items_attached (committed s')) ∧
  (∀ tid uid r,
     run (delete_todo tid uid) fault (clean st) = (s', r) →
     items_attached (committed s')) ∧
  (∀ uid ids action status r,
     run (bulk_update_todos uid ids action status) fault (clean st) = (s', r) →
     items_attached (committed s')).
Proof.
  intros Hpk Hat.
  repeat apply conj; intros; apply (store_step_attached st); try done.
  - by eapply add_item_to_todo_step.
  - by eapply update_item_status_step.
  - by eapply delete_item_step.
  - by eapply bulk_update_items_step.
  - by eapply create_todo_step.
  - by eapply update_todo_step.
  - by eapply delete_todo_step.
  - by eapply bulk_update_todos_step.
Qed.

Lemma operations_keep_items_attached_witness :
  items_attached (committed (run (delete_todo 1 1) None (clean sample)).1).
Proof.
  destruct (operations_keep_items_attached sample None
              (run (delete_todo 1 1) None (clean sample)).1 pk_unique_sample)
    as (_ & _ & _ & _ & _ & _ & Hdel & _).
  - apply (bool_decide_unpack _). by vm_compute.
  - eapply (Hdel 1 1). apply surjective_pairing.
Defined.

(** * The computed [overdue] flag *)

(** X16. An item that [update_item_status] has just set to "Completed" is
    not overdue on any day, whatever its due date; and an item that is
    overdue on one day is overdue on every later day as long as it is not
    changed. *)
Theorem completed_item_is_not_overdue
    (st : Store) (iid uid : Z) (fault : option string)
    (s' : Session) (it : Item.t) :
  run (update_item_status iid uid "Completed") fault (clean st)
  = (s', Ok (Some it, None)) →
  (∀ today, get_overdue today it = false) ∧
  (∀ (obj : Item.t) today later,
     get_overdue today obj = true → today ≤ later → get_overdue later obj = true).
Proof.
  intros Hrun. split.
  - intros today.
    destruct (first (item_filter_owned st iid uid)) as [it0|] eqn:E.
    + rewrite (run_update_item_status_valid st iid uid it0 "Completed" fault E)
        in Hrun by (apply (bool_decide_unpack _); by vm_compute).
      destruct fault; [discriminate Hrun|]. injection Hrun as _ <-.
      unfold get_overdue. simpl. by destruct (Item.due_date it0).
    + rewrite (run_update_item_status_None st iid uid _ fault E) in Hrun.
      discriminate Hrun.
  - intros obj today later. unfold get_overdue.
    destruct (Item.due_date obj) as [d|]; [|done].
    rewrite !andb_true_iff, !bool_decide_eq_true. intros [? ?] ?.
    split; [done|lia].
Qed.

Lemma completed_item_is_not_overdue_witness :
  get_overdue 100 (Item.mk 1 "C" "Completed" (Some 7) 1) = false.
Proof.
  set (st := mkStore [sample_todo 1 1] [Item.mk 1 "C" "Pending" (Some 7) 1]).
  destruct (completed_item_is_not_overdue st 1 1 None
              (run (update_item_status 1 1 "Completed") None (clean st)).1
              (Item.mk 1 "C" "Completed" (Some 7) 1)) as [H _].
  - reflexivity.
  - apply H.
Defined.

(** * The resources of items *)

Lemma elem_of_item_filter_owned_under st iid tid uid it :
  it ∈ item_filter_owned_under st iid tid uid ↔
  owns_item st uid it ∧ Item.id it = iid ∧ Item.todo_id it = tid.
Proof.
  unfold item_filter_owned_under, owns_item, item_owner.
  rewrite list_elem_of_fmap, Exists_exists. split.
  - intros ([it' t] & -> & Hin).
    apply list_elem_of_filter in Hin as [(Hi & Ht & Hu) Hin]. simpl in *.
    apply elem_of_item_join in Hin as (Hit & Hin & Hid).
    split; [|split; [done|congruence]]. split; [done|]. by exists t.
  - intros ([Hit (t & Ht & Hid & Hu)] & Hi & Htid). exists (it, t).
    split; [done|]. apply list_elem_of_filter. split.
    + simpl. split; [done|]. split; [congruence|done].
    + by apply elem_of_item_join.
Qed.

Lemma first_item_filter_owned_under_Some st iid tid uid it :
  first (item_filter_owned_under st iid tid uid) = Some it →
  owns_item st uid it ∧ Item.id it = iid ∧ Item.todo_id it = tid.
Proof.
  intros H. apply head_Some_elem_of in H.
  by apply elem_of_item_filter_owned_under.
Qed.

Lemma first_item_filter_owned_under_None st iid tid uid :
  first (item_filter_owned_under st iid tid uid) = None ↔
  ¬ ∃ it, owns_item st uid it ∧ Item.id it = iid ∧ Item.todo_id it = tid.
Proof.
  unfold first. rewrite head_None. split.
  - intros Hnil (it & Hit). apply elem_of_item_filter_owned_under in Hit.
    rewrite Hnil in Hit. by apply elem_of_nil in Hit.
  - intros Hno. apply elem_of_nil_inv. intros it Hit.
    apply elem_of_item_filter_owned_under in Hit. eauto.
Qed.

Lemma first_item_filter_owned_under_owner st iid tid uid it :
  pk_unique st → owns_item st uid it → Item.id it = iid →
  Item.todo_id it = tid →
  first (item_filter_owned_under st iid tid uid) = Some it.
Proof.
  intros [_ Hnd] Hown Hid Htid.
  destruct (first (item_filter_owned_under st iid tid uid)) as [y|] eqn:E.
  - apply first_item_filter_owned_under_Some in E as ([Hy _] & Hyid & _).
    f_equal. destruct Hown as [Hin _]. eapply NoDup_fmap_eq; eauto. congruence.
  - rewrite first_item_filter_owned_under_None in E. destruct E. eauto.
Qed.

(** X17. The listing of the items resource is not paginated: to the owner
    of the todo it answers 200 with every item of the todo, however many;
    to anyone else 404.  Nothing is changed. *)
Theorem items_resource_get_lists_all
    (st : Store) (uid tid : Z) (fault : option string) :
  ((¬ ∃ t, owns_todo st uid t ∧ Todo.id t = tid) →
   run (ItemsResource_get uid tid) fault (clean st)
   = (clean st, Ok (Abort 404 (Some "Todo not found or you don't have permission"))))
  ∧
  ((∃ t, owns_todo st uid t ∧ Todo.id t = tid) →
   ∃ l,
     run (ItemsResource_get uid tid) fault (clean st)
     = (clean st, Ok (Respond 200 l)) ∧
     l = filter (λ it, Item.todo_id it = tid) (items st)).
Proof.
  unfold ItemsResource_get. db_unfold. split.
  - intros Hno. apply first_todo_filter_by_None in Hno. by rewrite Hno.
  - intros Hown. destruct (first (todo_filter_by st tid uid)) as [t|] eqn:E.
    + apply first_todo_filter_by_Some in E as [_ ->]. by eexists.
    + apply first_todo_filter_by_None in E. by destruct E.
Qed.

Lemma items_resource_get_lists_all_witness :
  ∃ l,
    run (ItemsResource_get 1 1) None (clean crowded)
    = (clean crowded, Ok (Respond 200 l)) ∧
    length l = 150%nat.
Proof.
  destruct (items_resource_get_lists_all crowded 1 1 None) as [_ Hyes].
  destruct Hyes as (l & Hrun & ->).
  - exists (sample_todo 1 1). apply (bool_decide_unpack _). by vm_compute.
  - eexists. split; [exact Hrun|]. by vm_compute.
Defined.

(** X18. The item resource looks an item up under the todo of the path:
    it answers 200 with the item exactly when the item has the id asked
    for, hangs under that todo, and the todo is the caller's.  An item of
    the caller addressed under another todo is 404 like an item that does
    not exist. *)
Theorem item_resource_get_path_guard
    (st : Store) (uid tid iid : Z) (fault : option string) :
  pk_unique st →
  (∀ it,
     run (ItemResource_get uid tid iid) fault (clean st)
     = (clean st, Ok (Respond 200 it))
     ↔ owns_item st uid it ∧ Item.id it = iid ∧ Item.todo_id it = tid)
  ∧
  ((¬ ∃ it, owns_item st uid it ∧ Item.id it = iid ∧ Item.todo_id it = tid) →
   run (ItemResource_get uid tid iid) fault (clean st)
   = (clean st, Ok (Abort 404 (Some "Item not found or you don't have permission")))).
Proof.
  intros Hpk. unfold ItemResource_get. db_unfold. split.
  - intros it. split.
    + destruct (first (item_filter_owned_under st iid tid uid)) as [y|] eqn:E;
        [|discriminate].
      intros [= <-]. by apply first_item_filter_owned_under_Some.
    + intros (Hown & Hid & Htid).
      by rewrite (first_item_filter_owned_under_owner st iid tid uid it).
  - intros Hno. apply first_item_filter_owned_under_None in Hno.
    by rewrite Hno.
Qed.

(** Item 3 of the sample store belongs to todo 2 of user 1: asked for
    under todo 2 it is found, under todo 1 it is not. *)
Lemma item_resource_get_path_guard_witness :
  run (ItemResource_get 1 2 3) None (clean sample)
  = (clean sample, Ok (Respond 200 (sample_item 3 2))) ∧
  run (ItemResource_get 1 1 3) None (clean sample)
  = (clean sample, Ok (Abort 404 (Some "Item not found or you don't have permission"))).
Proof.
  split.
  - apply (item_resource_get_path_guard sample 1 2 3 None pk_unique_sample).
    split; [|split; reflexivity]. apply (bool_decide_unpack _). by vm_compute.
  - apply (item_resource_get_path_guard sample 1 1 3 None pk_unique_sample).
    apply first_item_filter_owned_under_None. reflexivity.
Defined.

Lemma run_item_resource_delete st uid tid iid it fault :
  first (item_filter_owned_under st iid tid uid) = Some it →
  run (ItemResource_delete uid tid iid) fault (clean st)
  = after_http_commit fault st
      (mkStore (todos st) (filter (λ r, Item.id r ≠ Item.id it) (items st)))
      (Respond 200 (true, "Item " +:+ pretty iid +:+ " deleted successfully")).
Proof.
  intros H. unfold ItemResource_delete. db_unfold. rewrite H.
  by destruct fault.
Qed.

Lemma run_item_resource_delete_None st uid tid iid fault :
  first (item_filter_owned_under st iid tid uid) = None →
  run (ItemResource_delete uid tid iid) fault (clean st)
  = (clean st, Ok (Abort 404 (Some item_not_found))).
Proof. intros H. unfold ItemResource_delete. db_unfold. by rewrite H. Qed.

(** X19. DELETE on the item resource.  For an item of the caller under the
    todo of the path: the row, and only it, is removed and the answer is
    200 with "Item <id> deleted successfully"; if the commit fails with
    [e], the session is rolled back, nothing is removed and the answer is
    500 with the text of [e].  Otherwise 404 and no change. *)
Theorem item_resource_delete_behaviour
    (st : Store) (uid tid iid : Z) :
  pk_unique st →
  (∀ it, owns_item st uid it → Item.id it = iid → Item.todo_id it = tid →
     (∃ st',
        run (ItemResource_delete uid tid iid) None (clean st)
        = (clean st',
           Ok (Respond 200
                 (true, "Item " +:+ pretty iid +:+ " deleted successfully"))) ∧
        todos st' = todos st ∧
        (∀ r, r ∈ items st' ↔ r ∈ items st ∧ r ≠ it)) ∧
     (∀ e, run (ItemResource_delete uid tid iid) (Some e) (clean st)
           = (clean st, Ok (Abort 500 (Some e)))))
  ∧
  ((¬ ∃ it, owns_item st uid it ∧ Item.id it = iid ∧ Item.todo_id it = tid) →
   ∀ fault,
     run (ItemResource_delete uid tid iid) fault (clean st)
     = (clean st, Ok (Abort 404 (Some "Item not found or you don't have permission")))).
Proof.
  intros Hpk. split.
  - intros it Hown Hid Htid.
    pose proof (first_item_filter_owned_under_owner st iid tid uid it
                  Hpk Hown Hid Htid) as Hq.
    split.
    + eexists. rewrite (run_item_resource_delete st uid tid iid it None Hq).
      split; [reflexivity|]. split; [done|]. simpl.
      intros r. rewrite list_elem_of_filter. split.
      * intros [Hne Hr]. split; [done|]. congruence.
      * intros [Hr Hne]. split; [|done].
        apply (key_ne_iff_ne Item.id (items st)); [apply Hpk|apply Hown|done..].
    + intros e. by rewrite (run_item_resource_delete st uid tid iid it _ Hq).
  - intros Hno fault. apply run_item_resource_delete_None.
    by apply first_item_filter_owned_under_None.
Qed.

Lemma item_resource_delete_behaviour_witness :
  run (ItemResource_delete 1 1 2) (Some "disk full") (clean sample)
  = (clean sample, Ok (Abort 500 (Some "disk full"))) ∧
  ∃ st',
    run (ItemResource_delete 1 1 2) None (clean sample)
    = (clean st', Ok (Respond 200 (true, "Item 2 deleted successfully"))).
Proof.
  destruct (item_resource_delete_behaviour sample 1 1 2 pk_unique_sample)
    as [Hown _].
  destruct (Hown (sample_item 2 1)) as [(st' & Hrun & _) Hfail].
  - apply (bool_decide_unpack _). by vm_compute.
  - reflexivity.
  - reflexivity.
  - split; [apply Hfail|]. exists st'. exact Hrun.
Defined.

Lemma run_opt_assign_item {A} (o : option A) (F : A → Item.t → Item.t)
    (item : Item.t) fault s :
  match o with
  | Some v => set_item_attr item (F v)
  | None => mret item
  end fault s
  = (mkSession (committed s)
       (mkStore (todos (pending s))
          ((λ r, if decide (Item.id r = Item.id item)
                 then from_option F (λ r, r) o r else r)
             <$> items (pending s))),
     Ok (from_option F (λ r, r) o item)).
Proof.
  destruct s as [c [ts its]], o as [v|]; db_unfold; [done|].
  do 3 f_equal. rewrite <- (list_fmap_id its) at 1.
  apply list_fmap_ext. intros i r _. simpl. by case_decide.
Qed.

Lemma update_items_compose (k : Z) (f g : Item.t → Item.t) (l : list Item.t) :
  (∀ r, Item.id (f r) = Item.id r) →
  (λ r, if decide (Item.id r = k) then g r else r)
    <$> ((λ r, if decide (Item.id r = k) then f r else r) <$> l)
  = (λ r, if decide (Item.id r = k) then g (f r) else r) <$> l.
Proof.
  intros Hf. rewrite <- list_fmap_compose. apply list_fmap_ext.
  intros i r _. simpl. destruct (decide (Item.id r = k)) as [E|E].
  - by rewrite decide_True by (by rewrite Hf).
  - by rewrite decide_False.
Qed.

Lemma patched_unfold (p : ItemPatch) (r : Item.t) :
  from_option item_with_due_date (λ r, r) (patch_due_date p)
    (from_option Item.with_status (λ r, r) (patch_status p)
       (from_option item_with_content (λ r, r) (patch_content p) r))
  = patched p r.
Proof. by destruct p as [[c|] [s|] [d|]], r. Qed.

Lemma from_option_item_id {A} (o : option A) (F : A → Item.t → Item.t) r :
  (∀ v r, Item.id (F v r) = Item.id r) →
  Item.id (from_option F (λ r, r) o r) = Item.id r.
Proof. intros HF. destruct o; simpl; auto. Qed.

Lemma run_item_resource_put st uid p tid iid it fault :
  first (item_filter_owned_under st iid tid uid) = Some it →
  run (ItemResource_put uid p tid iid) fault (clean st)
  = after_http_commit fault st
      (mkStore (todos st)
         ((λ r, if decide (Item.id r = Item.id it) then patched p r else r)
            <$> items st))
      (Respond 200 (patched p it)).
Proof.
  intros H. unfold ItemResource_put, run.
  unfold mbind at 1, db_bind at 1, query at 1. simpl. rewrite H.
  unfold mbind at 1, db_bind at 1. rewrite run_opt_assign_item. simpl.
  unfold mbind at 1, db_bind at 1. rewrite run_opt_assign_item. simpl.
  unfold mbind at 1, db_bind at 1. rewrite run_opt_assign_item. simpl.
  rewrite !from_option_item_id by done.
  rewrite !update_items_compose by (intros r; by apply from_option_item_id).
  rewrite patched_unfold.
  rewrite (list_fmap_ext _
    (λ r, if decide (Item.id r = Item.id it) then patched p r else r) (items st))
    by (intros i r _; simpl; case_decide; [apply patched_unfold|done]).
  db_unfold. by destruct fault.
Qed.

Lemma run_item_resource_put_None st uid p tid iid fault :
  first (item_filter_owned_under st iid tid uid) = None →
  run (ItemResource_put uid p tid iid) fault (clean st)
  = (clean st, Ok (Abort 404 (Some item_not_found))).
Proof. intros H. unfold ItemResource_put. db_unfold. by rewrite H. Qed.

(** X20. PUT on the item resource, for an item of the caller under the
    todo of the path: each of content, status and due_date that the body
    has replaces the attribute (a null due date clears it), the others
    stay, and so do the key and the parent todo; no other row changes.  If
    the commit fails with [e], the session is rolled back, nothing is
    changed and the answer is 500 with the text of [e]. *)
Theorem item_resource_put_merges
    (st : Store) (uid tid iid : Z) (it : Item.t) (p : ItemPatch) :
  pk_unique st → owns_item st uid it → Item.id it = iid →
  Item.todo_id it = tid →
  (∃ it',
     run (ItemResource_put uid p tid iid) None (clean st)
     = (clean (mkStore (todos st)
          ((λ r, if decide (r = it) then it' else r) <$> items st)),
        Ok (Respond 200 it')) ∧
     Item.content it' = default (Item.content it) (patch_content p) ∧
     Item.status it' = default (Item.status it) (patch_status p) ∧
     Item.due_date it' = default (Item.due_date it) (patch_due_date p) ∧
     Item.id it' = Item.id it ∧ Item.todo_id it' = Item.todo_id it)
  ∧
  (∀ e, run (ItemResource_put uid p tid iid) (Some e) (clean st)
        = (clean st, Ok (Abort 500 (Some e)))).
Proof.
  intros Hpk Hown Hid Htid.
  pose proof (first_item_filter_owned_under_owner st iid tid uid it
                Hpk Hown Hid Htid) as Hq.
  split.
  - exists (patched p it).
    rewrite (run_item_resource_put st uid p tid iid it None Hq). simpl.
    split; [|done]. do 3 f_equal. apply list_fmap_ext. intros i r Hr. simpl.
    apply list_elem_of_lookup_2 in Hr.
    destruct (decide (Item.id r = Item.id it)) as [E|E].
    + assert (r = it) as ->
        by (eapply NoDup_fmap_eq; eauto; [apply Hpk|apply Hown]).
      by rewrite decide_True.
    + rewrite decide_False; [done|]. congruence.
  - intros e. by rewrite (run_item_resource_put st uid p tid iid it _ Hq).
Qed.

Lemma item_resource_put_merges_witness :
  ∃ it',
    run (ItemResource_put 1 (mkItemPatch None (Some "Completed") (Some (Some 9)))
           1 2) None (clean sample)
    = (clean (mkStore (todos sample)
         [sample_item 1 1; it'; sample_item 3 2; sample_item 4 3]),
       Ok (Respond 200 it')) ∧
    it' = Item.mk 2 "C" "Completed" (Some 9) 1.
Proof.
  destruct (item_resource_put_merges sample 1 1 2 (sample_item 2 1)
              (mkItemPatch None (Some "Completed") (Some (Some 9))))
    as [(it' & Hrun & Hc & Hs & Hd & Hi & Ht) _].
  - exact pk_unique_sample.
  - apply (bool_decide_unpack _). by vm_compute.
  - reflexivity.
  - reflexivity.
  - exists it'. split; [exact Hrun|].
    destruct it'. simpl in *. by subst.
Defined.

Lemma run_items_resource_post st uid d tid t fault :
  first (todo_filter_by st tid uid) = Some t →
  run (ItemsResource_post uid d tid) fault (clean st)
  = let item := Item.mk (next_id (Item.id <$> items st)) (data_content d)
                  (data_status d) (data_due_date d) (Todo.id t) in
    after_http_commit fault st (mkStore (todos st) (items st ++ [item]))
      (Respond 201 item).
Proof.
  intros H. unfold ItemsResource_post. db_unfold. rewrite H. db_unfold.
  by destruct fault.
Qed.

Lemma run_items_resource_post_None st uid d tid fault :
  first (todo_filter_by st tid uid) = None →
  run (ItemsResource_post uid d tid) fault (clean st)
  = (clean st, Ok (Abort 404 (Some todo_not_found_or_permission))).
Proof. intros H. unfold ItemsResource_post. db_unfold. by rewrite H. Qed.

(** X21. The create and update paths of the item resources keep the
    status vocabulary: when the status that the schema has let through is
    one of [VALID_STATUSES] (its [OneOf] validator), every item of the
    committed store has a status of the vocabulary after POST and after
    PUT, whatever else the request holds and however the commit ends. *)
Theorem item_resources_keep_vocabulary
    (st : Store) (uid tid : Z) (fault : option string) (s' : Session) :
  statuses_valid st →
  (∀ d r, data_status d ∈ VALID_STATUSES →
     run (ItemsResource_post uid d tid) fault (clean st) = (s', r) →
     statuses_valid (committed s'))
  ∧
  (∀ p iid r, (∀ v, patch_status p = Some v → v ∈ VALID_STATUSES) →
     run (ItemResource_put uid p tid iid) fault (clean st) = (s', r) →
     statuses_valid (committed s')).
Proof.
  intros Hst. split.
  - intros d r Hv.
    destruct (first (todo_filter_by st tid uid)) as [t|] eqn:E.
    + rewrite (run_items_resource_post st uid d tid t fault E). simpl.
      destruct fault; intros [= <- <-]; simpl; [done|].
      unfold statuses_valid in *. simpl. apply Forall_app. split; [done|].
      by apply Forall_singleton.
    + rewrite run_items_resource_post_None by done. by intros [= <- <-].
  - intros p iid r Hv.
    destruct (first (item_filter_owned_under st iid tid uid)) as [it|] eqn:E.
    + rewrite (run_item_resource_put st uid p tid iid it fault E).
      destruct fault; intros [= <- <-]; simpl; [done|].
      unfold statuses_valid in *. simpl. apply Forall_fmap.
      eapply Forall_impl; [exact Hst|]. intros x Hx. simpl.
      case_decide; [|done]. simpl.
      destruct (patch_status p) as [v|]; simpl; [by apply Hv|done].
    + rewrite run_item_resource_put_None by done. by intros [= <- <-].
Qed.

Lemma item_resources_keep_vocabulary_witness :
  statuses_valid
    (committed (run (ItemsResource_post 1 (mkItemData "x" "Completed" None) 1)
                  None (clean sample)).1).
Proof.
  destruct (item_resources_keep_vocabulary sample 1 1 None
              (run (ItemsResource_post 1 (mkItemData "x" "Completed" None) 1)
                 None (clean sample)).1) as [Hpost _].
  - apply (bool_decide_unpack _). by vm_compute.
  - eapply (Hpost (mkItemData "x" "Completed" None)).
    + apply (bool_decide_unpack _). by vm_compute.
    + apply surjective_pairing.
Defined.

(** X22. The bulk resource of items.  An empty list of ids is answered
    400 before the business logic is called.  What [bulk_update_items]
    refuses is answered 404 with its message, an unknown action as much as
    ids that are not the caller's.  A delete that goes through is
    answered 200 with a message that lists the ids as they were asked
    for. *)
Theorem items_bulk_resource_answers
    (st : Store) (uid : Z) (ids : list Z) (action : string)
    (fault : option string) :
  (ids = [] →
   run (ItemsBulkResource_put uid ids action) fault (clean st)
   = (clean st,
      Ok (Abort 400 (Some "item_ids must be a non-empty list of integers"))))
  ∧
  (ids ≠ [] → (¬ ∃ it, it ∈ items st ∧ item_selected st uid ids it) →
   run (ItemsBulkResource_put uid ids action) fault (clean st)
   = (clean st,
      Ok (Abort 404 (Some "Item not found or you don't have permission"))))
  ∧
  ((∃ it, it ∈ items st ∧ item_selected st uid ids it) →
   action ≠ "delete" → action ∉ VALID_STATUSES →
   run (ItemsBulkResource_put uid ids action) fault (clean st)
   = (clean st,
      Ok (Abort 404
            (Some "Invalid action. Must be one of ['Pending', 'Partially Completed', 'Completed'] or 'delete'"))))
  ∧
  (pk_unique st → (∃ it, it ∈ items st ∧ item_selected st uid ids it) →
   run (ItemsBulkResource_put uid ids "delete") None (clean st)
   = (clean (mkStore (todos st)
        (filter (λ r, ¬ item_selected st uid ids r) (items st))),
      Ok (Respond 200
            (true, "Items " +:+ py_str_ints ids +:+ " deleted successfully")))).
Proof.
  assert ((∃ it, it ∈ items st ∧ item_selected st uid ids it) → ids ≠ []) as Hne.
  { intros (it & _ & Hin & _) ->. by apply elem_of_nil in Hin. }
  repeat apply conj.
  - intros ->. reflexivity.
  - intros Hids Hno. unfold ItemsBulkResource_put.
    rewrite decide_False by done. unfold run, mbind, db_bind.
    pose proof (run_bulk_update_items_none st uid ids action fault) as Hrun.
    unfold run in Hrun. rewrite Hrun; [done|].
    by apply item_filter_owned_in_nil.
  - intros Hsel Hdel Hv. unfold ItemsBulkResource_put.
    rewrite decide_False by auto. unfold run, mbind, db_bind.
    pose proof (run_bulk_update_items_invalid st uid ids action fault) as Hrun.
    unfold run in Hrun. rewrite Hrun; [done| |done..].
    rewrite item_filter_owned_in_nil. by intros [].
  - intros Hpk Hsel. unfold ItemsBulkResource_put.
    rewrite decide_False by auto. unfold run, mbind, db_bind.
    pose proof (run_bulk_update_items_delete st uid ids None Hpk) as Hrun.
    unfold run in Hrun. rewrite Hrun; [done|].
    rewrite item_filter_owned_in_nil. by intros [].
Qed.

Lemma items_bulk_resource_answers_witness :
  run (ItemsBulkResource_put 1 [] "delete") None (clean sample)
  = (clean sample,
     Ok (Abort 400 (Some "item_ids must be a non-empty list of integers")))
  ∧
  ∃ st',
    run (ItemsBulkResource_put 1 [1; 4; 9] "delete") None (clean sample)
    = (clean st', Ok (Respond 200 (true, "Items [1, 4, 9] deleted successfully")))
    ∧ items st' = [sample_item 2 1; sample_item 3 2; sample_item 4 3].
Proof.
  split.
  - by apply (items_bulk_resource_answers sample 1 [] "delete" None).
  - destruct (items_bulk_resource_answers sample 1 [1; 4; 9] "delete" None)
      as (_ & _ & _ & Hdel).
    eexists. split.
    + apply Hdel; [exact pk_unique_sample|].
      exists (sample_item 1 1). apply (bool_decide_unpack _). by vm_compute.
    + reflexivity.
Defined.

(** * The resource of todos *)

(** X23. GET on the todo resource.  The todo id is tested for truth, so
    id 0 is answered like no id at all, with the listing.  The listing
    holds todos of the caller only, ten at most when no page size is
    asked for.  For another id, the owner gets 200 with the todo and
    anyone else 403, whether the todo exists or not. *)
Theorem todo_resource_get_dispatch
    (st : Store) (uid : Z) (page per_page : option Z) (fault : option string) :
  run (TodoResource_get uid (Some 0) page per_page) fault (clean st)
  = run (TodoResource_get uid None page per_page) fault (clean st)
  ∧
  (∃ l,
     run (TodoResource_get uid None page per_page) fault (clean st)
     = (clean st, Ok (Respond 200 (inr l))) ∧
     (∀ t, t ∈ l → t ∈ todos st ∧ Todo.user_id t = uid) ∧
     (per_page = None → (length l ≤ 10)%nat))
  ∧
  (∀ tid, tid ≠ 0 → (¬ ∃ t, owns_todo st uid t ∧ Todo.id t = tid) →
     run (TodoResource_get uid (Some tid) page per_page) fault (clean st)
     = (clean st,
        Ok (Abort 403 (Some "Forbidden: Not your Todo or doesn't exist"))))
  ∧
  (pk_unique st → ∀ tid t, tid ≠ 0 → owns_todo st uid t → Todo.id t = tid →
     run (TodoResource_get uid (Some tid) page per_page) fault (clean st)
     = (clean st, Ok (Respond 200 (inl t)))).
Proof.
  repeat apply conj.
  - reflexivity.
  - eexists. split; [reflexivity|]. split.
    + intros t Ht. apply elem_of_paginate in Ht.
      apply list_elem_of_filter in Ht. tauto.
    + intros ->.
      pose proof (paginate_length (todo_filter_by_user st uid)
                    (default 1 page) 10) as Hlen.
      simpl in *. lia.
  - intros tid Hne Hno. unfold TodoResource_get.
    rewrite bool_decide_eq_true_2 by (split; congruence).
    apply first_todo_filter_by_None in Hno.
    unfold get_todo_by_id. db_unfold. by rewrite Hno.
  - intros Hpk tid t Hne Hown Hid. unfold TodoResource_get.
    rewrite bool_decide_eq_true_2 by (split; congruence).
    unfold get_todo_by_id. db_unfold.
    by rewrite (first_todo_filter_by_owner st tid uid t).
Qed.

Lemma todo_resource_get_dispatch_witness :
  run (TodoResource_get 1 (Some 3) None None) None (clean sample)
  = (clean sample,
     Ok (Abort 403 (Some "Forbidden: Not your Todo or doesn't exist")))
  ∧
  run (TodoResource_get 1 (Some 2) None None) None (clean sample)
  = (clean sample, Ok (Respond 200 (inl (sample_todo 2 1)))).
Proof.
  destruct (todo_resource_get_dispatch sample 1 None None None)
    as (_ & _ & Hno & Hyes).
  split.
  - apply Hno; [lia|]. apply first_todo_filter_by_None. reflexivity.
  - apply Hyes; [exact pk_unique_sample|lia| |reflexivity].
    apply (bool_decide_unpack _). by vm_compute.
Defined.

(** X24. POST on the todo resource.  A body that is null or has no
    "title" key is answered 400 and nothing is stored.  With a string for
    title (an empty string as well) the todo is created for the caller and
    answered 201: the description comes from the body, the status is the
    string of the body, or "In Progress" when the body has none or has
    null; [completed] is false and the owner is the caller, whatever the
    body says.  With null for title the commit raises, the handler does
    not catch the exception, and nothing is stored. *)
Theorem todo_resource_post_requires_title (st : Store) (uid : Z) :
  (∀ data fault,
     (data = None ∨ ∃ d, data = Some d ∧ d !! "title" = None) →
     run (TodoResource_post uid data) fault (clean st)
     = (clean st, Ok (Abort 400 (Some "Missing field: title"))))
  ∧
  (∀ (d : TodoBody) title, d !! "title" = Some (PyStr title) →
     ∃ t,
       run (TodoResource_post uid (Some d)) None (clean st)
       = (clean (mkStore (todos st ++ [t]) (items st)), Ok (Respond 201 t)) ∧
       t = Todo.mk (next_id (Todo.id <$> todos st)) (PyStr title)
             (default PyNone (d !! "description"))
             (match d !! "status" with
              | Some (PyStr status) => PyStr status
              | _ => PyStr "In Progress"
              end)
             (PyBool false) uid)
  ∧
  (∀ (d : TodoBody) fault, d !! "title" = Some PyNone →
     ∃ e s',
       run (TodoResource_post uid (Some d)) fault (clean st) = (s', Raise e)
       ∧ committed s' = st).
Proof.
  split; [|split].
  - intros data fault [->|(d & -> & Hd)]; [done|].
    unfold TodoResource_post. by rewrite Hd.
  - intros d title Hd. eexists. unfold TodoResource_post. rewrite Hd.
    unfold run, mbind, db_bind.
    pose proof (run_create_todo st (as_text (PyStr title)) uid
                  (as_text (default PyNone (d !! "description")))
                  (as_text (default (PyStr "In Progress") (d !! "status")))
                  None) as Hrun.
    unfold run in Hrun. rewrite Hrun. simpl. split; [reflexivity|].
    pose proof (todo_body_description d) as Hdesc.
    pose proof (todo_body_status d) as Hstat.
    f_equal.
    + destruct (d !! "description") as [v|]; [|done]. simpl in *.
      by apply py_text_as_text.
    + destruct (d !! "status") as [v|]; [|done]. simpl in *.
      by destruct v.
  - intros d fault Hd. eexists _, _. unfold TodoResource_post. rewrite Hd.
    unfold run, mbind, db_bind.
    pose proof (run_create_todo st (as_text PyNone) uid
                  (as_text (default PyNone (d !! "description")))
                  (as_text (default (PyStr "In Progress") (d !! "status")))
                  fault) as Hrun.
    unfold run in Hrun. rewrite Hrun. simpl. split; reflexivity.
Qed.

Lemma todo_resource_post_requires_title_witness :
  run (TodoResource_post 2 (Some body_without_title)) None (clean sample)
  = (clean sample, Ok (Abort 400 (Some "Missing field: title")))
  ∧
  (∃ t,
     run (TodoResource_post 2 (Some body_empty_title)) None (clean sample)
     = (clean (mkStore (todos sample ++ [t]) (items sample)),
        Ok (Respond 201 t)) ∧
     t = Todo.mk 4 (PyStr "") PyNone (PyStr "In Progress") (PyBool false) 2)
  ∧
  (∃ e s',
     run (TodoResource_post 2 (Some body_null_title)) None (clean sample)
     = (s', Raise e)
     ∧ committed s' = sample).
Proof.
  destruct (todo_resource_post_requires_title sample 2) as (Hno & Hyes & Hnull).
  split; [|split].
  - apply Hno. right. eexists. split; [reflexivity|]. by vm_compute.
  - destruct (Hyes body_empty_title "") as (t & Hrun & Ht).
    + by vm_compute.
    + exists t. split; [exact Hrun|]. rewrite Ht. by vm_compute.
  - apply Hnull. by vm_compute.
Defined.

(** X25. DELETE on the todo resource.  For a todo that is not the
    caller's the answer is 403 with "Todo not found" and nothing changes.
    For the owner the todo and the items under it are removed and the
    answer is 200 with "Todo deleted"; a failing commit is not caught
    here: the exception goes on to the caller, with nothing committed. *)
Theorem todo_resource_delete_answers (st : Store) (uid tid : Z) :
  ((¬ ∃ t, owns_todo st uid t ∧ Todo.id t = tid) →
   ∀ fault,
     run (TodoResource_delete uid tid) fault (clean st)
     = (clean st, Ok (Abort 403 (Some "Todo not found"))))
  ∧
  (pk_unique st → ∀ t, owns_todo st uid t → Todo.id t = tid →
     run (TodoResource_delete uid tid) None (clean st)
     = (clean (mkStore (filter (λ r, Todo.id r ≠ tid) (todos st))
                 (filter (λ r, Item.todo_id r ≠ tid) (items st))),
        Ok (Respond 200 "Todo deleted"))
     ∧
     ∀ e, ∃ s',
       run (TodoResource_delete uid tid) (Some e) (clean st) = (s', Raise e)
       ∧ committed s' = st).
Proof.
  split.
  - intros Hno fault. apply first_todo_filter_by_None in Hno.
    unfold TodoResource_delete, run, mbind, db_bind.
    pose proof (run_delete_todo_None st tid uid fault Hno) as Hrun.
    unfold run in Hrun. by rewrite Hrun.
  - intros Hpk t Hown Hid.
    pose proof (first_todo_filter_by_owner st tid uid t Hpk Hown Hid) as Hq.
    split.
    + unfold TodoResource_delete, run, mbind, db_bind.
      pose proof (run_delete_todo_fault st tid uid t None Hpk Hq) as Hrun.
      unfold run in Hrun. rewrite Hrun. simpl. by rewrite Hid.
    + intros e. eexists.
      unfold TodoResource_delete, run, mbind, db_bind.
      pose proof (run_delete_todo_fault st tid uid t (Some e) Hpk Hq) as Hrun.
      unfold run in Hrun. rewrite Hrun. simpl. split; reflexivity.
Qed.

Lemma todo_resource_delete_answers_witness :
  run (TodoResource_delete 1 3) None (clean sample)
  = (clean sample, Ok (Abort 403 (Some "Todo not found")))
  ∧
  run (TodoResource_delete 2 3) None (clean sample)
  = (clean (mkStore [sample_todo 1 1; sample_todo 2 1]
              [sample_item 1 1; sample_item 2 1; sample_item 3 2]),
     Ok (Respond 200 "Todo deleted")).
Proof.
  split.
  - apply (todo_resource_delete_answers sample 1 3).
    apply first_todo_filter_by_None. reflexivity.
  - destruct (todo_resource_delete_answers sample 2 3) as [_ Hown].
    destruct (Hown pk_unique_sample (sample_todo 3 2)) as [Hrun _].
    + apply (bool_decide_unpack _). by vm_compute.
    + reflexivity.
    + exact Hrun.
Defined.
